(** * GP1_RayTracer: hit tests, lights, materials, matrices and the per-pixel
    integrator, embedded from [Utils.h], [Material.h], [Matrix.cpp] and
    [Renderer.cpp].

    The C++ code computes on [float].  The embedding is written over an
    interface [Scalar] of the operations the code applies to its numbers, and
    is read at [Binary32.scalar]: IEEE 754 single precision (24-bit mantissa,
    round to nearest even, signed zeros, infinities, NaN), through the
    executable specification [SpecFloat] of the Standard Library.  What
    depends only on the shape of the code is stated for every scalar type;
    every concrete evaluation and every statement about values is made in
    binary32. *)

From Stdlib Require Import ZArith Zpower List Bool String Lia.
From Stdlib Require Import QArith.
From Stdlib Require Import SpecFloat.
Import ListNotations.

Set Implicit Arguments.

(* ================================================================== *)
(** ** The scalar interface *)

Class Scalar (F : Type) : Type := {
  fadd : F -> F -> F;
  fsub : F -> F -> F;
  fmul : F -> F -> F;
  fdiv : F -> F -> F;
  fopp : F -> F;
  fsqrt : F -> F;                 (* sqrtf *)
  feqb : F -> F -> bool;          (* == *)
  fltb : F -> F -> bool;          (* <  *)
  fleb : F -> F -> bool;          (* <= *)
  ofZ : Z -> F;                   (* conversion of an integer, and integral literals *)
  FLT_MAX : F;
  FLT_EPSILON : F
}.

Declare Scope scalar_scope.
Delimit Scope scalar_scope with fl.
Notation "x + y" := (fadd x y) : scalar_scope.
Notation "x - y" := (fsub x y) : scalar_scope.
Notation "x * y" := (fmul x y) : scalar_scope.
Notation "x / y" := (fdiv x y) : scalar_scope.
Notation "- x" := (fopp x) : scalar_scope.
Notation "x == y" := (feqb x y) (at level 70, no associativity) : scalar_scope.
Notation "x <? y" := (fltb x y) : scalar_scope.
Notation "x <=? y" := (fleb x y) : scalar_scope.
(* [a > b] and [a >= b] of the source are [b < a] and [b <= a]: both sides
   are false when an operand is NaN. *)
Notation "x >? y" := (fltb y x) : scalar_scope.
Notation "x >=? y" := (fleb y x) : scalar_scope.

(** IEEE 754 binary32, the [float] of the source. *)
Module Binary32.
Definition prec : Z := 24.
Definition emax : Z := 128.

Definition of_Z (z : Z) : spec_float := binary_normalize prec emax z 0 false.

(* (2^24 - 1) * 2^104 *)
Definition flt_max : spec_float := S754_finite false 16777215 104.
(* 2^-23 *)
Definition flt_epsilon : spec_float := S754_finite false 8388608 (-46).

Definition pinf : spec_float := S754_infinity false.
Definition ninf : spec_float := S754_infinity true.

(* Neither an infinity nor NaN. *)
Definition is_finite (x : spec_float) : bool :=
  match x with
  | S754_zero _ | S754_finite _ _ _ => true
  | S754_infinity _ | S754_nan => false
  end.

(* Zero of either sign, or NaN: what a product with a zero factor can be. *)
Definition zero_or_nan (x : spec_float) : bool :=
  match x with
  | S754_zero _ | S754_nan => true
  | _ => false
  end.

(* A zero, NaN, a negative number or -infinity: what fails every test
   [lo <= x] with a positive [lo]. *)
Definition not_positive (x : spec_float) : bool :=
  match x with
  | S754_zero _ | S754_nan => true
  | S754_infinity s | S754_finite s _ _ => s
  end.

(* A mantissa and an exponent as rounding leaves them: the mantissa is not
   negative and the exponent is the one its number of bits asks for. *)
Definition placed (m e : Z) : Prop :=
  (0 <= m)%Z /\ fexp prec emax (Zdigits2 m + e) = e.

(* A zero, or a positive number whose value m * 2^e is at most 1. *)
Definition unit_value (x : spec_float) : Prop :=
  match x with
  | S754_zero _ => True
  | S754_finite false m e => (e <= 0)%Z /\ (Zpos m <= 2 ^ (- e))%Z
  | _ => False
  end.

(* [0.0f <= x && x <= 1.0f], as the program's comparisons read it. *)
Definition in_unit (x : spec_float) : bool :=
  SFleb (of_Z 0) x && SFleb x (of_Z 1).

(* The rational number a finite value stands for; 0 for the others. *)
Definition to_Q (x : spec_float) : Q :=
  match x with
  | S754_finite s m e => inject_Z (cond_Zopp s (Zpos m)) * Qpower 2 e
  | _ => 0
  end.

#[export] Instance scalar : Scalar spec_float := {
  fadd := SFadd prec emax;
  fsub := SFsub prec emax;
  fmul := SFmul prec emax;
  fdiv := SFdiv prec emax;
  fopp := SFopp;
  fsqrt := SFsqrt prec emax;
  feqb := SFeqb;
  fltb := SFltb;
  fleb := SFleb;
  ofZ := of_Z;
  FLT_MAX := flt_max;
  FLT_EPSILON := flt_epsilon
}.
End Binary32.

(* ================================================================== *)
(** ** Aborts *)

(** What a call comes to: a value, or the end of the process. *)
Inductive result (A : Type) : Type :=
| Ok (a : A)
| AssertFailed (msg : string)   (* an [assert] fired (builds without NDEBUG) *)
| OutOfRange.                   (* [operator[]] of a std::vector past its end *)
Arguments AssertFailed {A} msg.
Arguments OutOfRange {A}.

Definition bind {A B : Type} (m : result A) (k : A -> result B) : result B :=
  match m with
  | Ok a => k a
  | AssertFailed msg => AssertFailed msg
  | OutOfRange => OutOfRange
  end.

Notation "x <- m ;; k" := (bind m (fun x => k))
  (at level 61, m at next level, right associativity).

Definition at_index {A : Type} (v : list A) (i : nat) : result A :=
  match nth_error v i with
  | Some a => Ok a
  | None => OutOfRange
  end.

(* ================================================================== *)
(** ** Vectors, colours, rays, hit records *)

Section Model.
Context {F : Type} {SF : Scalar F}.
Local Open Scope scalar_scope.

(** Literals of the source: the scalar nearest to the decimal written. *)
Definition f0 : F := ofZ 0.
Definition f1 : F := ofZ 1.
Definition f2 : F := ofZ 2.
Definition f4 : F := ofZ 4.
Definition f0_5 : F := ofZ 1 / ofZ 2.
Definition f0_0001 : F := ofZ 1 / ofZ 10000.
Definition f0_7 : F := ofZ 7 / ofZ 10.
Definition f0_04 : F := ofZ 4 / ofZ 100.

(** [Square] of MathHelpers.h, which is not among the sources: the product
    of its argument with itself. *)
Definition Square (a : F) : F := a * a.

(** Modelled from the spec: Vector3.h, Vector4.h and ColorRGB.h are not among
    the sources.  "Vector3 / Vector4: triples/quadruples of floating-point
    scalars; operations: add, subtract, scale, dot, cross, magnitude,
    normalize (in place and returning a copy)", written componentwise, sums
    from left to right; colours likewise. *)
Record Vector3 : Type := mkV3 { vx : F; vy : F; vz : F }.
Record Vector4 : Type := mkV4 { x4 : F; y4 : F; z4 : F; w4 : F }.
Record ColorRGB : Type := mkRGB { r : F; g : F; b : F }.

Definition UnitX : Vector3 := mkV3 f1 f0 f0.
Definition UnitY : Vector3 := mkV3 f0 f1 f0.
Definition UnitZ : Vector3 := mkV3 f0 f0 f1.
Definition V3zero : Vector3 := mkV3 f0 f0 f0.

Definition vadd (a c : Vector3) : Vector3 :=
  mkV3 (vx a + vx c) (vy a + vy c) (vz a + vz c).
Definition vsub (a c : Vector3) : Vector3 :=
  mkV3 (vx a - vx c) (vy a - vy c) (vz a - vz c).
Definition vscale (a : Vector3) (s : F) : Vector3 :=
  mkV3 (vx a * s) (vy a * s) (vz a * s).
(* float * Vector3 *)
Definition scalev (s : F) (a : Vector3) : Vector3 := vscale a s.
Definition vneg (a : Vector3) : Vector3 := mkV3 (- vx a) (- vy a) (- vz a).
Definition Dot (a c : Vector3) : F := vx a * vx c + vy a * vy c + vz a * vz c.
Definition Magnitude (a : Vector3) : F :=
  fsqrt (vx a * vx a + vy a * vy a + vz a * vz a).
Definition Normalized (a : Vector3) : Vector3 :=
  let m := Magnitude a in mkV3 (vx a / m) (vy a / m) (vz a / m).
(* In place: the normalized vector, and the former magnitude it returns. *)
Definition Normalize (a : Vector3) : Vector3 * F := (Normalized a, Magnitude a).
Definition Reflect (v1 v2 : Vector3) : Vector3 :=
  vsub v1 (scalev (f2 * Dot v1 v2) v2).

Definition v4scale (a : Vector4) (s : F) : Vector4 :=
  mkV4 (x4 a * s) (y4 a * s) (z4 a * s) (w4 a * s).
Definition V4of (v : Vector3) (w : F) : Vector4 := mkV4 (vx v) (vy v) (vz v) w.
Definition V3of (v : Vector4) : Vector3 := mkV3 (x4 v) (y4 v) (z4 v).

Definition black : ColorRGB := mkRGB f0 f0 f0.        (* ColorRGB{} *)
Definition White : ColorRGB := mkRGB f1 f1 f1.        (* colors::White *)
Definition cadd (a c : ColorRGB) : ColorRGB :=
  mkRGB (r a + r c) (g a + g c) (b a + b c).
Definition csub (a c : ColorRGB) : ColorRGB :=
  mkRGB (r a - r c) (g a - g c) (b a - b c).
Definition cmul (a c : ColorRGB) : ColorRGB :=
  mkRGB (r a * r c) (g a * g c) (b a * b c).
Definition cscale (a : ColorRGB) (s : F) : ColorRGB :=
  mkRGB (r a * s) (g a * s) (b a * s).

(** Modelled from the spec: DataTypes.h is not among the sources.  "Ray:
    origin point, normalized direction vector, scalar interval [min, max]";
    "HitRecord: didHit flag, hit origin, hit distance t, surface normal,
    materialIndex"; "Sphere {center, radius, materialIndex}; Plane {point,
    normal, materialIndex}"; "Light: discriminated union over {Point: origin +
    color/intensity; Directional: direction + color/intensity}".  Field names
    are those the sources use. *)
Record Ray : Type := mkRay {
  ray_origin : Vector3;
  ray_direction : Vector3;
  ray_min : F;
  ray_max : F
}.

Record HitRecord : Type := mkHit {
  hit_origin : Vector3;
  hit_normal : Vector3;
  hit_t : F;
  didHit : bool;
  materialIndex : nat
}.

Record Sphere : Type := mkSphere {
  sphere_origin : Vector3;
  sphere_radius : F;
  sphere_materialIndex : nat
}.

Record Plane : Type := mkPlane {
  plane_origin : Vector3;
  plane_normal : Vector3;
  plane_materialIndex : nat
}.

Inductive LightType : Type := Point | Directional.

Record Light : Type := mkLight {
  light_origin : Vector3;
  light_direction : Vector3;
  light_color : ColorRGB;
  light_intensity : F;
  light_type : LightType
}.

(* A value-initialised record, [HitRecord temp{}] and [HitRecord closestHit{}]:
   no hit yet.  The default member initialisers are in DataTypes.h; zero
   vectors, index 0 and [t = FLT_MAX] stand for them. *)
Definition HitRecord_init : HitRecord := mkHit V3zero V3zero FLT_MAX false 0.

(* ================================================================== *)
(** ** Utils.h, namespace GeometryUtils *)

(** [HitTest_Sphere(sphere, ray, hitRecord, ignoreHitRecord)]: the returned
    flag and the record the reference parameter holds afterwards. *)
Definition sphere_tc (sphere : Sphere) (ray : Ray) : Vector3 :=
  vsub (sphere_origin sphere) (ray_origin ray).
Definition sphere_dp (sphere : Sphere) (ray : Ray) : F :=
  Dot (sphere_tc sphere ray) (ray_direction ray).
Definition sphere_odSqr (sphere : Sphere) (ray : Ray) : F :=
  Square (Magnitude (sphere_tc sphere ray)) - Square (sphere_dp sphere ray).
Definition sphere_tca (sphere : Sphere) (ray : Ray) : F :=
  fsqrt (Square (sphere_radius sphere) - sphere_odSqr sphere ray).
Definition sphere_ti1 (sphere : Sphere) (ray : Ray) : F :=
  sphere_dp sphere ray - sphere_tca sphere ray.

Definition HitTest_Sphere (sphere : Sphere) (ray : Ray) (hitRecord : HitRecord)
    (ignoreHitRecord : bool) : bool * HitRecord :=
  let ti1 := sphere_ti1 sphere ray in
  if (ti1 >=? ray_min ray) && (ti1 <=? ray_max ray) then
    if ignoreHitRecord then (true, hitRecord)
    else
      let pointI1 := vadd (ray_origin ray) (vscale (ray_direction ray) ti1) in
      (true,
       {| hit_origin := ray_origin ray;
          hit_normal := Normalized (vsub (sphere_origin sphere) pointI1);
          hit_t := ti1;
          didHit := true;
          materialIndex := sphere_materialIndex sphere |})
  else (false, hitRecord).

(** [HitTest_Sphere(sphere, ray)]. *)
Definition HitTest_Sphere_any (sphere : Sphere) (ray : Ray) : bool :=
  fst (HitTest_Sphere sphere ray HitRecord_init true).

Definition plane_t (plane : Plane) (ray : Ray) : F :=
  Dot (vsub (plane_origin plane) (ray_origin ray)) (plane_normal plane)
  / Dot (ray_direction ray) (plane_normal plane).

Definition HitTest_Plane (plane : Plane) (ray : Ray) (hitRecord : HitRecord)
    (ignoreHitRecord : bool) : bool * HitRecord :=
  let t := plane_t plane ray in
  if (t >=? ray_min ray) && (t <=? ray_max ray) then
    if ignoreHitRecord then (true, hitRecord)
    else
      (true,
       {| hit_origin := ray_origin ray;
          hit_normal := plane_normal plane;
          hit_t := t;
          didHit := true;
          materialIndex := plane_materialIndex plane |})
  else (false, hitRecord).

(** [HitTest_Plane(plane, ray)]. *)
Definition HitTest_Plane_any (plane : Plane) (ray : Ray) : bool :=
  fst (HitTest_Plane plane ray HitRecord_init true).

(* ================================================================== *)
(** ** Utils.h, namespace LightUtils *)

Definition GetDirectionToLight (light : Light) (origin : Vector3) : Vector3 :=
  match light_type light with
  | Point => vsub (light_origin light) origin
  | Directional => vscale (vneg (light_direction light)) FLT_MAX
  end.

(** [GetRadiance]: [assert(false && "No Implemented Yet!"); return {};].
    [NDEBUG] tells whether assertions are compiled out. *)
Definition GetRadiance (NDEBUG : bool) (light : Light) (target : Vector3)
    : result ColorRGB :=
  if NDEBUG then Ok black else AssertFailed "No Implemented Yet!"%string.

(* ================================================================== *)
(** ** Material.h *)

(** BRDFs.h is not among the sources: the functions of namespace [BRDF] that
    the materials call are taken as given. *)
Record BRDFs : Type := mkBRDFs {
  Lambert : F -> ColorRGB -> ColorRGB;             (* Lambert(float kd, cd) *)
  Lambert_rgb : ColorRGB -> ColorRGB -> ColorRGB;  (* Lambert(ColorRGB kd, cd) *)
  Phong : F -> F -> Vector3 -> Vector3 -> Vector3 -> ColorRGB;
  FresnelFunction_Schlick : Vector3 -> Vector3 -> ColorRGB -> ColorRGB;
  NormalDistribution_GGX : Vector3 -> Vector3 -> F -> F;
  GeometryFunction_Smith : Vector3 -> Vector3 -> Vector3 -> F -> F
}.

(** The classes derived from [Material], with their members. *)
Inductive Material : Type :=
| Material_SolidColor (m_Color : ColorRGB)
| Material_Lambert (m_DiffuseColor : ColorRGB) (m_DiffuseReflectance : F)
| Material_LambertPhong (m_DiffuseColor : ColorRGB)
    (m_DiffuseReflectance m_SpecularReflectance m_PhongExponent : F)
| Material_CookTorrence (m_Albedo : ColorRGB) (m_Metalness m_Roughness : F).

(* [1.0f / (4.0f * Dot(v, n) * Dot(l, n))] of the Cook-Torrance specular term. *)
Definition CookTorrence_scale (hitRecord : HitRecord) (l v : Vector3) : F :=
  f1 / (f4 * Dot v (hit_normal hitRecord) * Dot l (hit_normal hitRecord)).

Definition CookTorrence_Shade (brdf : BRDFs) (m_Albedo : ColorRGB)
    (m_Metalness m_Roughness : F) (hitRecord : HitRecord) (l v : Vector3)
    : ColorRGB :=
  let baseReflectivity :=
    if m_Metalness == f0 then mkRGB f0_04 f0_04 f0_04 else m_Albedo in
  let halfVector := Normalized (vadd v l) in
  let fresnel := FresnelFunction_Schlick brdf halfVector v baseReflectivity in
  let normalDistribution :=
    NormalDistribution_GGX brdf (hit_normal hitRecord) halfVector m_Roughness in
  let GeoSmith :=
    GeometryFunction_Smith brdf (vneg (hit_normal hitRecord)) v l m_Roughness in
  let specularColor :=
    cscale (cscale (cscale fresnel normalDistribution) GeoSmith)
           (CookTorrence_scale hitRecord l v) in
  let kd := csub (mkRGB f1 f1 f1) fresnel in
  let kd := if m_Metalness >? f0 then mkRGB f0 f0 f0 else kd in
  let diffuseColor := Lambert_rgb brdf kd m_Albedo in
  cadd specularColor diffuseColor.

(** The virtual [Shade]. *)
Definition Shade (brdf : BRDFs) (m : Material) (hitRecord : HitRecord)
    (l v : Vector3) : ColorRGB :=
  match m with
  | Material_SolidColor m_Color => m_Color
  | Material_Lambert m_DiffuseColor m_DiffuseReflectance =>
      Lambert brdf m_DiffuseReflectance m_DiffuseColor
  | Material_LambertPhong m_DiffuseColor kd ks m_PhongExponent =>
      cadd (Lambert brdf kd m_DiffuseColor)
           (Phong brdf ks m_PhongExponent l (vneg v) (hit_normal hitRecord))
  | Material_CookTorrence m_Albedo m_Metalness m_Roughness =>
      CookTorrence_Shade brdf m_Albedo m_Metalness m_Roughness hitRecord l v
  end.

(** The virtual [GetReflectivity]; the base class answers [0.0f]. *)
Definition GetReflectivity (m : Material) : F :=
  match m with
  | Material_CookTorrence _ m_Metalness m_Roughness =>
      (f1 - m_Roughness) * m_Metalness
  | _ => f0
  end.

(* ================================================================== *)
(** ** Matrix.cpp *)

(** Four [Vector4] columns, [data[0]] to [data[3]]. *)
Record Matrix : Type := mkMatrix {
  data0 : Vector4; data1 : Vector4; data2 : Vector4; data3 : Vector4
}.

(** [Matrix(const Vector3& xAxis, yAxis, zAxis, t)]. *)
Definition Matrix_of_axes (xAxis yAxis zAxis t : Vector3) : Matrix :=
  mkMatrix (V4of xAxis f0) (V4of yAxis f0) (V4of zAxis f0) (V4of t f1).

(** [TransformVector(float x, float y, float z)]. *)
Definition TransformVector_xyz (m : Matrix) (x y z : F) : Vector3 :=
  let d0 := v4scale (data0 m) x in
  let d1 := v4scale (data1 m) y in
  let d2 := v4scale (data2 m) z in
  mkV3 (x4 d0 + x4 d1 + x4 d2) (y4 d0 + y4 d1 + y4 d2) (z4 d0 + z4 d1 + z4 d2).

Definition TransformVector (m : Matrix) (v : Vector3) : Vector3 :=
  TransformVector_xyz m (vx v) (vy v) (vz v).

(** [TransformPoint(float x, float y, float z)]. *)
Definition TransformPoint_xyz (m : Matrix) (x y z : F) : Vector3 :=
  let d0 := v4scale (data0 m) x in
  let d1 := v4scale (data1 m) y in
  let d2 := v4scale (data2 m) z in
  mkV3 (x4 d0 + x4 d1 + x4 d2 + x4 (data3 m))
       (y4 d0 + y4 d1 + y4 d2 + y4 (data3 m))
       (z4 d0 + z4 d1 + z4 d2 + z4 (data3 m)).

Definition TransformPoint (m : Matrix) (p : Vector3) : Vector3 :=
  TransformPoint_xyz m (vx p) (vy p) (vz p).

(** [CreateTranslation(float x, float y, float z)]. *)
Definition CreateTranslation_xyz (x y z : F) : Matrix :=
  mkMatrix (mkV4 f1 f0 f0 x) (mkV4 f0 f1 f0 y) (mkV4 f0 f0 f1 z)
           (mkV4 f0 f0 f0 f1).

(** [CreateTranslation(const Vector3& t)]. *)
Definition CreateTranslation (t : Vector3) : Matrix :=
  Matrix_of_axes UnitX UnitY UnitZ t.

Section Rotations.
(* <cmath> *)
Variables cosf sinf : F -> F.

Definition CreateRotationX (pitch : F) : Matrix :=
  mkMatrix (mkV4 f1 f0 f0 f0)
           (mkV4 f0 (cosf pitch) (- sinf pitch) f0)
           (mkV4 f0 (sinf pitch) (cosf pitch) f0)
           (mkV4 f0 f0 f0 f1).

Definition CreateRotationY (yaw : F) : Matrix :=
  mkMatrix (mkV4 (cosf yaw) f0 (- sinf yaw) f0)
           (mkV4 f0 f1 f0 f0)
           (mkV4 (sinf yaw) f0 (cosf yaw) f0)
           (mkV4 f0 f0 f0 f1).

Definition CreateRotationZ (roll : F) : Matrix :=
  mkMatrix (mkV4 (cosf roll) (sinf roll) f0 f0)
           (mkV4 (- sinf roll) (cosf roll) f0 f0)
           (mkV4 f0 f0 f0 f0)
           (mkV4 f0 f0 f0 f1).
End Rotations.

(* ================================================================== *)
(** ** Renderer.cpp *)

Inductive LightingMode : Type := ObservedArea | Radiance | BRDF | Combined.

(** The data members [RenderPixel] reads (Renderer.h is not among the
    sources). *)
Record Renderer : Type := mkRenderer {
  m_Width : Z;
  m_Height : Z;
  m_Bounces : Z;
  m_ShadowsEnabled : bool;
  m_ReflectionsEnabled : bool;
  m_CurrentLightingMode : LightingMode
}.

(** Scene.h and camera.h are not among the sources: the two scene queries and
    the camera members [RenderPixel] uses are taken as given.
    [GetClosestHit ray h] is the record that [pScene->GetClosestHit(ray, h)]
    leaves in [h]. *)
Record Scene : Type := mkScene {
  GetClosestHit : Ray -> HitRecord -> HitRecord;
  DoesHit : Ray -> bool
}.

Record Camera : Type := mkCamera {
  camera_origin : Vector3;
  fovRatio : F;
  cameraToWorld : Matrix
}.

(** [Ray viewRay{ origin, direction }]: the interval members keep the default
    initialisers of DataTypes.h, [rayMin] and [rayMax] here. *)
Record RayDefaults : Type := mkRayDefaults { rayMin : F; rayMax : F }.

Section RenderPixel.
Variable NDEBUG : bool.
Variable brdf : BRDFs.
Variable rd : RayDefaults.
Variable this : Renderer.
Variable pScene : Scene.
Variable lights : list Light.
Variable materials : list Material.

(** The [switch] on the lighting mode: the colour [finalColor] holds after
    it.  [continue] leaves it as it was. *)
Definition accumulate (mode : LightingMode) (bounce : Z)
    (observedArea reflectivity multiplier : F)
    (radianceColor BRDFcolor finalColor : ColorRGB) : ColorRGB :=
  match mode with
  | ObservedArea =>
      if observedArea <? f0 then finalColor
      else cadd finalColor (mkRGB observedArea observedArea observedArea)
  | Radiance => cadd finalColor radianceColor
  | BRDF => cadd finalColor BRDFcolor
  | Combined =>
      if observedArea <? f0 then finalColor
      else if (0 <? bounce)%Z then
        cadd finalColor
          (cscale (cscale (cscale (cmul radianceColor BRDFcolor) observedArea)
                          reflectivity) multiplier)
      else
        cadd finalColor (cscale (cmul radianceColor BRDFcolor) observedArea)
  end.

(* [Dot(closestHit.normal, directionToLight)] with the normalized direction. *)
Definition observedArea_of (light : Light) (closestHit : HitRecord) : F :=
  Dot (hit_normal closestHit)
      (fst (Normalize (GetDirectionToLight light (hit_origin closestHit)))).

(** The body of [for (const Light& light : lights)]. *)
Definition light_step (bounce : Z) (rayDirection : Vector3)
    (closestHit : HitRecord) (reflectivity multiplier : F)
    (finalColor : ColorRGB) (light : Light) : result ColorRGB :=
  let '(directionToLight, lightDistance) :=
    Normalize (GetDirectionToLight light (hit_origin closestHit)) in
  let lightRay :=
    mkRay (vadd (hit_origin closestHit) (vscale (hit_normal closestHit) f0_0001))
          directionToLight f0 lightDistance in
  let observedArea := Dot (hit_normal closestHit) directionToLight in
  if m_ShadowsEnabled this && DoesHit pScene lightRay then Ok finalColor
  else
    radianceColor <- GetRadiance NDEBUG light (hit_origin closestHit) ;;
    material <- at_index materials (materialIndex closestHit) ;;
    let BRDFcolor :=
      Shade brdf material closestHit (vneg directionToLight) rayDirection in
    Ok (accumulate (m_CurrentLightingMode this) bounce observedArea
          reflectivity multiplier radianceColor BRDFcolor finalColor).

Fixpoint light_loop (bounce : Z) (rayDirection : Vector3)
    (closestHit : HitRecord) (reflectivity multiplier : F)
    (finalColor : ColorRGB) (ls : list Light) : result ColorRGB :=
  match ls with
  | [] => Ok finalColor
  | light :: rest =>
      c <- light_step bounce rayDirection closestHit reflectivity multiplier
             finalColor light ;;
      light_loop bounce rayDirection closestHit reflectivity multiplier c rest
  end.

(** [for (int bounce{}; bounce < m_Bounces; bounce++)], with [remaining]
    iterations to go: the colour accumulated when the loop is left. *)
Fixpoint bounce_loop (remaining : nat) (bounce : Z) (rayDirection : Vector3)
    (viewRay : Ray) (finalColor : ColorRGB) (reflectivity multiplier : F)
    : result ColorRGB :=
  match remaining with
  | O => Ok finalColor
  | S remaining' =>
      let closestHit := GetClosestHit pScene viewRay HitRecord_init in
      if didHit closestHit then
        finalColor' <- light_loop bounce rayDirection closestHit reflectivity
                         multiplier finalColor lights ;;
        material <- at_index materials (materialIndex closestHit) ;;
        let reflectivity' := GetReflectivity material in
        let multiplier' := multiplier * f0_7 in
        let viewRay' :=
          mkRay (vadd (hit_origin closestHit)
                      (vscale (hit_normal closestHit) f0_0001))
                (Reflect (ray_direction viewRay) (hit_normal closestHit))
                (ray_min viewRay) (ray_max viewRay) in
        if (reflectivity' <? FLT_EPSILON) || negb (m_ReflectionsEnabled this)
        then Ok finalColor'
        else bounce_loop remaining' (bounce + 1)%Z rayDirection viewRay'
               finalColor' reflectivity' multiplier'
      else
        let skyColor := White in
        bounce_loop remaining' (bounce + 1)%Z rayDirection viewRay
          (cadd finalColor skyColor) reflectivity multiplier
  end.

(** [RenderPixel]: the index [px + py * m_Width] of the buffer cell and the
    colour accumulated for it, which [MaxToOne] and [SDL_MapRGB] then turn
    into the pixel written. *)
Definition RenderPixel (pixelIndex : Z) (fov aspectRatio : F)
    (camera : Camera) : result (Z * ColorRGB) :=
  let px := (pixelIndex mod m_Width this)%Z in
  let py := (pixelIndex / m_Width this)%Z in
  let cx :=
    (f2 * (ofZ px + f0_5) / ofZ (m_Width this) - f1) * aspectRatio * fov in
  let cy := (f1 - (f2 * (ofZ py + f0_5)) / ofZ (m_Height this)) * fov in
  let multiplier := f1 in
  let rayDirection :=
    Normalized (TransformVector (cameraToWorld camera) (mkV3 cx cy f1)) in
  let viewRay := mkRay (camera_origin camera) rayDirection (rayMin rd) (rayMax rd) in
  finalColor <- bounce_loop (Z.to_nat (m_Bounces this)) 0%Z rayDirection viewRay
                  black f0 multiplier ;;
  Ok ((px + py * m_Width this)%Z, finalColor).

End RenderPixel.
End Model.

Arguments Vector3 F : clear implicits.
Arguments Vector4 F : clear implicits.
Arguments ColorRGB F : clear implicits.
Arguments Ray F : clear implicits.
Arguments HitRecord F : clear implicits.
Arguments Sphere F : clear implicits.
Arguments Plane F : clear implicits.
Arguments Light F : clear implicits.
Arguments BRDFs F : clear implicits.
Arguments Material F : clear implicits.
Arguments Matrix F : clear implicits.
Arguments Scene F : clear implicits.
Arguments Camera F : clear implicits.
Arguments RayDefaults F : clear implicits.

(** ** The sky colour, repeated *)

Section Sky.
Context {F : Type} {SF : Scalar F}.

(* The sky colour added [n] times, one addition after the other. *)
Fixpoint add_sky (n : nat) (c : ColorRGB F) : ColorRGB F :=
  match n with
  | O => c
  | S n' => add_sky n' (cadd c White)
  end.

End Sky.

(* ================================================================== *)
(** ** Concrete inputs in binary32 *)

Module Samples.
Import Binary32.

(* The vector and the colour with the given integral components. *)
Definition V (x y z : Z) : Vector3 spec_float := mkV3 (of_Z x) (of_Z y) (of_Z z).
Definition RGB (x y z : Z) : ColorRGB spec_float := mkRGB (of_Z x) (of_Z y) (of_Z z).

(* A stand-in for BRDFs.h, to run [Shade] on concrete inputs: Fresnel
   answers the base reflectivity, both microfacet terms answer 1, Lambert
   answers the product of its arguments and Phong answers black. *)
Definition brdf_sample : BRDFs spec_float :=
  {| Lambert := fun kd cd => cscale cd kd;
     Lambert_rgb := fun kd cd => cmul cd kd;
     Phong := fun _ _ _ _ _ => black;
     FresnelFunction_Schlick := fun _ _ f => f;
     NormalDistribution_GGX := fun _ _ _ => of_Z 1;
     GeometryFunction_Smith := fun _ _ _ _ => of_Z 1 |}.

(* The plane y = 1 and a ray along +x through the origin, parallel to it,
   with the interval [0.0001, +infinity]. *)
Definition plane_y1 : Plane spec_float := mkPlane (V 0 1 0) (V 0 1 0) 0.
Definition ray_along_x : Ray spec_float := mkRay (V 0 0 0) (V 1 0 0) f0_0001 pinf.
(* The same ray with the interval [0.0001, FLT_MAX]. *)
Definition ray_along_x_bounded : Ray spec_float :=
  mkRay (V 0 0 0) (V 1 0 0) f0_0001 FLT_MAX.

(* A hit on a surface with normal +y, lit along the normal and seen at a
   grazing angle: the view direction +x is perpendicular to the normal. *)
Definition hit_up : HitRecord spec_float := mkHit (V 0 0 0) (V 0 1 0) (of_Z 1) true 0.
Definition mirror_metal : Material spec_float :=
  Material_CookTorrence (RGB 1 1 1) (of_Z 1) (of_Z 0).

(* A scene without primitives: no query ever hits. *)
Definition empty_scene : Scene spec_float := mkScene (fun _ h => h) (fun _ => false).
(* A camera at the origin looking along +z. *)
Definition identity_camera : Camera spec_float :=
  mkCamera (V 0 0 0) (of_Z 1) (Matrix_of_axes UnitX UnitY UnitZ (V 0 0 0)).
Definition ray_defaults : RayDefaults spec_float := mkRayDefaults f0_0001 FLT_MAX.
(* A renderer for a 1 x 1 image, shadows off, reflections on. *)
Definition renderer (bounces : Z) (mode : LightingMode) : Renderer :=
  mkRenderer 1 1 bounces false true mode.
Definition view_ray : Ray spec_float := mkRay (V 0 0 0) (V 0 0 1) f0_0001 FLT_MAX.

(* A hit at the origin whose normal -z faces away from a point light on the
   +z axis, on a solid red material. *)
Definition hit_down : HitRecord spec_float :=
  mkHit (V 0 0 0) (V 0 0 (-1)) (of_Z 1) true 0.
Definition lamp : Light spec_float :=
  mkLight (V 0 0 5) (V 0 0 0) (RGB 1 1 1) (of_Z 2) Point.
Definition sun : Light spec_float :=
  mkLight (V 0 0 0) (V 0 (-1) 0) (RGB 1 1 1) (of_Z 2) Directional.
Definition red_only : list (Material spec_float) := [Material_SolidColor (RGB 1 0 0)].

(* The unit sphere around (0, 0, 5), seen from the origin along +z. *)
Definition sphere_ahead : Sphere spec_float := mkSphere (V 0 0 5) (of_Z 1) 0.

(* The exact squared distance between two points with finite coordinates. *)
Definition dist2_Q (a c : Vector3 spec_float) : Q :=
  (to_Q (vx a) - to_Q (vx c)) ^ 2 + (to_Q (vy a) - to_Q (vy c)) ^ 2
  + (to_Q (vz a) - to_Q (vz c)) ^ 2.

(* The sphere of radius 5 around (3, 4 - 2^-22, 2^-13), and the ray from
   the origin along +z with the interval [0.0001, FLT_MAX].  The squared
   distance of the origin from the centre is 25 - 2^-19 + 2^-26 + 2^-44. *)
Definition below4 : spec_float := S754_finite false 16777215 (-22).
Definition two_pow_m13 : spec_float := S754_finite false 8388608 (-36).
Definition sphere_r5 : Sphere spec_float :=
  mkSphere (mkV3 (of_Z 3) below4 two_pow_m13) (of_Z 5) 0.
Definition ray_inside : Ray spec_float :=
  mkRay (V 0 0 0) (V 0 0 1) f0_0001 FLT_MAX.

(* The sphere of radius 2 around (0, 0, 5) and the ray from (0, 0, 4), one
   unit before the centre, along +z. *)
Definition sphere_r2 : Sphere spec_float := mkSphere (V 0 0 5) (of_Z 2) 0.
Definition ray_within_r2 : Ray spec_float :=
  mkRay (V 0 0 4) (V 0 0 1) f0_0001 FLT_MAX.

(* The sphere of radius 2^-76 around the origin, whose squared radius
   2^-152 is below the smallest positive binary32 value 2^-149, and the ray
   from (0, 0, -2^-77), half a radius before the centre, along +z with the
   interval [2^-100, FLT_MAX]. *)
Definition two_pow_m76 : spec_float := S754_finite false 8388608 (-99).
Definition two_pow_m77 : spec_float := S754_finite false 8388608 (-100).
Definition two_pow_m100 : spec_float := S754_finite false 8388608 (-123).
Definition sphere_tiny : Sphere spec_float := mkSphere (V 0 0 0) two_pow_m76 0.
Definition ray_within_tiny : Ray spec_float :=
  mkRay (mkV3 (of_Z 0) (of_Z 0) (SFopp two_pow_m77)) (V 0 0 1)
        two_pow_m100 FLT_MAX.

End Samples.

(* ================================================================== *)
(** ** Matrix.cpp: transpose, product, rotation from Euler angles, scale *)

Section MatrixOps.
Context {F : Type} {SF : Scalar F}.
Local Open Scope scalar_scope.

(** Modelled from the spec: Vector4.h is not among the sources.  The dot
    product of two quadruples, sums from left to right, and "component
    access by index": 0, 1, 2, 3 for x, y, z, w.  The loops below use the
    indices 0 to 3 only. *)
Definition Dot4 (a c : Vector4 F) : F :=
  x4 a * x4 c + y4 a * y4 c + z4 a * z4 c + w4 a * w4 c.

Definition v4_get (v : Vector4 F) (i : nat) : F :=
  match i with
  | 0%nat => x4 v
  | 1%nat => y4 v
  | 2%nat => z4 v
  | _ => w4 v
  end.

Definition v4_set (v : Vector4 F) (i : nat) (a : F) : Vector4 F :=
  match i with
  | 0%nat => mkV4 a (y4 v) (z4 v) (w4 v)
  | 1%nat => mkV4 (x4 v) a (z4 v) (w4 v)
  | 2%nat => mkV4 (x4 v) (y4 v) a (w4 v)
  | _ => mkV4 (x4 v) (y4 v) (z4 v) a
  end.

(** [Matrix::operator[]]: [data[index]], for an index from 0 to 3. *)
Definition column (m : Matrix F) (index : nat) : Vector4 F :=
  match index with
  | 0%nat => data0 m
  | 1%nat => data1 m
  | 2%nat => data2 m
  | _ => data3 m
  end.

Definition set_column (m : Matrix F) (index : nat) (v : Vector4 F) : Matrix F :=
  match index with
  | 0%nat => mkMatrix v (data1 m) (data2 m) (data3 m)
  | 1%nat => mkMatrix (data0 m) v (data2 m) (data3 m)
  | 2%nat => mkMatrix (data0 m) (data1 m) v (data3 m)
  | _ => mkMatrix (data0 m) (data1 m) (data2 m) v
  end.

(* [m[r][c] = a] *)
Definition set_entry (m : Matrix F) (r c : nat) (a : F) : Matrix F :=
  set_column m r (v4_set (column m r) c a).

(* [for (int i{ 0 }; i < 4; ++i) body] *)
Definition for4 {S : Type} (body : nat -> S -> S) (s : S) : S :=
  fold_left (fun s i => body i s) [0; 1; 2; 3]%nat s.

(** [Matrix::Transpose()] on a matrix holding [m]: the value of [*this]
    afterwards, which is also what the static [Transpose(m)] returns.
    [fresh] is the value of [Matrix result{}] (Matrix.h is not among the
    sources). *)
Definition Transpose (fresh m : Matrix F) : Matrix F :=
  let result :=
    for4 (fun r result =>
      for4 (fun c result => set_entry result r c (v4_get (column m c) r))
           result) fresh in
  mkMatrix (column result 0) (column result 1) (column result 2)
           (column result 3).

(** [Matrix::operator*]: [a * m]. *)
Definition Matrix_mul (fresh a m : Matrix F) : Matrix F :=
  let m_transposed := Transpose fresh m in
  for4 (fun r result =>
    for4 (fun c result =>
            set_entry result r c (Dot4 (column a r) (column m_transposed c)))
         result) fresh.

(** [Matrix::operator*=]: the value of [*this] afterwards, for [*this]
    holding [a]; the entries are written one by one into [data], read from
    the copy. *)
Definition Matrix_mul_assign (fresh a m : Matrix F) : Matrix F :=
  let copy := a in
  let m_transposed := Transpose fresh m in
  for4 (fun r data =>
    for4 (fun c data =>
            set_entry data r c (Dot4 (column copy r) (column m_transposed c)))
         data) a.

Definition GetAxisX (m : Matrix F) : Vector3 F := V3of (data0 m).
Definition GetAxisY (m : Matrix F) : Vector3 F := V3of (data1 m).
Definition GetAxisZ (m : Matrix F) : Vector3 F := V3of (data2 m).
Definition GetTranslation (m : Matrix F) : Vector3 F := V3of (data3 m).

(** [CreateScale(float sx, float sy, float sz)]. *)
Definition CreateScale_xyz (sx sy sz : F) : Matrix F :=
  mkMatrix (mkV4 sx f0 f0 f0) (mkV4 f0 sy f0 f0) (mkV4 f0 f0 sz f0)
           (mkV4 f0 f0 f0 f1).

(** [CreateScale(const Vector3& s)]. *)
Definition CreateScale (s : Vector3 F) : Matrix F :=
  CreateScale_xyz (vx s) (vy s) (vz s).

(** [CreateRotation(const Vector3& r)]:
    [CreateRotationX(r.x) * CreateRotationY(r.y) * CreateRotationZ(r.z)]. *)
Definition CreateRotation (cosf sinf : F -> F) (fresh : Matrix F)
    (r : Vector3 F) : Matrix F :=
  Matrix_mul fresh
    (Matrix_mul fresh (CreateRotationX cosf sinf (vx r))
                      (CreateRotationY cosf sinf (vy r)))
    (CreateRotationZ cosf sinf (vz r)).

(** [CreateRotation(float pitch, float yaw, float roll)]. *)
Definition CreateRotation_pyr (cosf sinf : F -> F) (fresh : Matrix F)
    (pitch yaw roll : F) : Matrix F :=
  CreateRotation cosf sinf fresh (mkV3 pitch yaw roll).

End MatrixOps.

(* ================================================================== *)
(** ** Renderer.cpp: the lighting-mode cycle and the task split *)

(** [CycleLightingMode]: the new mode and the line written to [std::cout]. *)
Definition endl : string := String (Ascii.ascii_of_nat 10) EmptyString.

Definition CycleLightingMode (m_CurrentLightingMode : LightingMode)
    : LightingMode * string :=
  match m_CurrentLightingMode with
  | ObservedArea => (Radiance, append "LightingMode: Radiance" endl)
  | Radiance => (BRDF, append "LightingMode: BRDF" endl)
  | BRDF => (Combined, append "LightingMode: Combined" endl)
  | Combined => (ObservedArea, append "LightingMode: ObservedArea" endl)
  end.

(* [CycleLightingMode] called [n] times in a row: the mode reached. *)
Fixpoint cycle_n (n : nat) (mode : LightingMode) : LightingMode :=
  match n with
  | O => mode
  | S n' => cycle_n n' (fst (CycleLightingMode mode))
  end.

(* A value of type uint32_t. *)
Definition u32 (z : Z) : Z := z mod 2 ^ 32.

(* The indices [first, first + 1, ..., last - 1] a loop
   [for (i = first; i < last; ++i)] runs through. *)
Definition range (first last : Z) : list Z :=
  map (fun i => (first + Z.of_nat i)%Z) (seq 0 (Z.to_nat (last - first))).

(** The loop over the cores of the ASYNC variant of [Render]: for every task
    created, the pixel indices its loop passes to [RenderPixel]. *)
Fixpoint async_tasks (cores : nat) (pixelsPerTask unassignedPixels
    currPixelIndex : Z) : list (list Z) :=
  match cores with
  | O => []
  | S cores' =>
      let taskSize := pixelsPerTask in
      let '(taskSize, unassignedPixels) :=
        if (0 <? unassignedPixels)%Z
        then (u32 (taskSize + 1), u32 (unassignedPixels - 1))
        else (taskSize, unassignedPixels) in
      let endPixel := u32 (currPixelIndex + taskSize) in
      range currPixelIndex endPixel
      :: async_tasks cores' pixelsPerTask unassignedPixels
           (u32 (currPixelIndex + taskSize))
  end.

(** The tasks of the ASYNC variant for [numPixels] pixels on [numCores]
    cores. *)
Definition Render_async_tasks (numPixels numCores : Z) : list (list Z) :=
  async_tasks (Z.to_nat numCores) (numPixels / numCores)
    (numPixels mod numCores) 0.

(* ================================================================== *)
(** ** More concrete inputs *)

Module MoreSamples.
Import Binary32 Samples.

(* A scene in which every ray is reported as hitting something; the closest
   hit is the given record. *)
Definition solid_scene (h : HitRecord spec_float) : Scene spec_float :=
  mkScene (fun _ _ => h) (fun _ => true).

(* A hit one unit ahead on the z axis, facing the camera, on material 0. *)
Definition hit_ahead : HitRecord spec_float :=
  mkHit (V 0 0 0) (V 0 0 (-1)) (of_Z 1) true 0.

(* A sphere the ray along +z passes at distance 2: the unit sphere around
   (2, 0, 5). *)
Definition sphere_aside : Sphere spec_float := mkSphere (V 2 0 5) (of_Z 1) 0.

(* Neither NaN nor different from the old value: what a channel can be
   after zero, or a NaN, has been added to it. *)
Definition same_or_nan (old new : spec_float) : bool :=
  match new with
  | S754_nan => true
  | _ => SFeqb new old
  end.

Definition is_nan (x : spec_float) : bool :=
  match x with
  | S754_nan => true
  | _ => false
  end.

Definition channels_same_or_nan (old new : ColorRGB spec_float) : Prop :=
  same_or_nan (r old) (r new) = true /\ same_or_nan (g old) (g new) = true
  /\ same_or_nan (b old) (b new) = true.

(* The three components are binary32 values: a zero, an infinity, NaN, or
   a mantissa of at most 24 bits with the exponent that belongs to it
   ([spec_float] also holds other mantissa and exponent pairs). *)
Definition valid_vector (v : Vector3 spec_float) : bool :=
  valid_binary prec emax (vx v) && valid_binary prec emax (vy v)
  && valid_binary prec emax (vz v).

(* Each component of [w] is NaN or equal as a float (so up to the sign of a
   zero) to the product of the components of [s] and [v]. *)
Definition scaled (s v w : Vector3 spec_float) : Prop :=
  same_or_nan (vx s * vx v)%fl (vx w) = true
  /\ same_or_nan (vy s * vy v)%fl (vy w) = true
  /\ same_or_nan (vz s * vz v)%fl (vz w) = true.

(* The ray from the origin along +y, which meets the plane y = 1 at
   distance 1. *)
Definition ray_along_y : Ray spec_float :=
  mkRay (V 0 0 0) (V 0 1 0) f0_0001 FLT_MAX.

(* Renderers for a 1 x 1 image and three bounces: reflections off; shadows
   on. *)
Definition renderer_no_reflections : Renderer :=
  mkRenderer 1 1 3 false false Combined.
Definition renderer_shadows : Renderer := mkRenderer 1 1 3 true true Combined.

(* A renderer for an image 4 pixels wide and 3 high, one bounce. *)
Definition renderer_4x3 : Renderer := mkRenderer 4 3 1 false true Combined.

End MoreSamples.

(* ================================================================== *)
(** * Properties *)

(** ** The hit tests, for every scalar type *)

Section HitTestFacts.
Context {F : Type} {SF : Scalar F}.
Local Open Scope scalar_scope.

(** The interval test alone decides the flag of the sphere test. *)
Lemma HitTest_Sphere_flag (sphere : Sphere F) (ray : Ray F)
    (hitRecord : HitRecord F) (ignoreHitRecord : bool) :
  fst (HitTest_Sphere sphere ray hitRecord ignoreHitRecord)
  = (sphere_ti1 sphere ray >=? ray_min ray)
    && (sphere_ti1 sphere ray <=? ray_max ray).
Proof.
  unfold HitTest_Sphere.
  destruct ((sphere_ti1 sphere ray >=? ray_min ray)
            && (sphere_ti1 sphere ray <=? ray_max ray)); [|reflexivity].
  destruct ignoreHitRecord; reflexivity.
Qed.

(** The same for the plane test. *)
Lemma HitTest_Plane_flag (plane : Plane F) (ray : Ray F)
    (hitRecord : HitRecord F) (ignoreHitRecord : bool) :
  fst (HitTest_Plane plane ray hitRecord ignoreHitRecord)
  = (plane_t plane ray >=? ray_min ray) && (plane_t plane ray <=? ray_max ray).
Proof.
  unfold HitTest_Plane.
  destruct ((plane_t plane ray >=? ray_min ray)
            && (plane_t plane ray <=? ray_max ray)); [|reflexivity].
  destruct ignoreHitRecord; reflexivity.
Qed.

(** With [ignoreHitRecord] set, the record comes back as it was passed. *)
Lemma HitTest_Sphere_ignore (sphere : Sphere F) (ray : Ray F)
    (hitRecord : HitRecord F) :
  snd (HitTest_Sphere sphere ray hitRecord true) = hitRecord.
Proof.
  unfold HitTest_Sphere.
  destruct (_ && _); reflexivity.
Qed.

Lemma HitTest_Plane_ignore (plane : Plane F) (ray : Ray F)
    (hitRecord : HitRecord F) :
  snd (HitTest_Plane plane ray hitRecord true) = hitRecord.
Proof.
  unfold HitTest_Plane.
  destruct (_ && _); reflexivity.
Qed.

(** A reported hit is recorded as one: [didHit] is set, [t] is the nearer
    root and the normal is taken from the centre minus the hit point. *)
Lemma HitTest_Sphere_record (sphere : Sphere F) (ray : Ray F)
    (hitRecord : HitRecord F) :
  fst (HitTest_Sphere sphere ray hitRecord false) = true ->
  let h := snd (HitTest_Sphere sphere ray hitRecord false) in
  didHit h = true
  /\ hit_t h = sphere_ti1 sphere ray
  /\ hit_normal h
     = Normalized (vsub (sphere_origin sphere)
                        (vadd (ray_origin ray)
                              (vscale (ray_direction ray) (sphere_ti1 sphere ray)))).
Proof.
  unfold HitTest_Sphere.
  destruct (_ && _); simpl; [auto | discriminate].
Qed.

(** C8. For every sphere, every plane and every ray: the two-argument
    (any-hit) overload returns the flag of the record-building call, whatever
    record that call is given; and a call with [ignoreHitRecord = true] hands
    the caller's record back unchanged. *)
Theorem C8_any_hit_agrees_with_record_form (sphere : Sphere F) (plane : Plane F)
    (ray : Ray F) (hitRecord : HitRecord F) :
  HitTest_Sphere_any sphere ray = fst (HitTest_Sphere sphere ray hitRecord false)
  /\ snd (HitTest_Sphere sphere ray hitRecord true) = hitRecord
  /\ HitTest_Plane_any plane ray = fst (HitTest_Plane plane ray hitRecord false)
  /\ snd (HitTest_Plane plane ray hitRecord true) = hitRecord.
Proof.
  unfold HitTest_Sphere_any, HitTest_Plane_any.
  rewrite !HitTest_Sphere_flag, !HitTest_Plane_flag.
  rewrite HitTest_Sphere_ignore, HitTest_Plane_ignore.
  repeat split.
Qed.

End HitTestFacts.

(* ================================================================== *)
(** ** Infinities and NaN in binary32 *)

Module Binary32Facts.
Import Binary32.

Lemma eqb_zero (x : spec_float) :
  SFeqb x (of_Z 0) = true -> exists s, x = S754_zero s.
Proof.
  destruct x as [s|s| |s m e]; simpl; intros H.
  - now exists s.
  - destruct s; discriminate.
  - discriminate.
  - destruct s; discriminate.
Qed.

Lemma mul_zero_r (x y : spec_float) :
  zero_or_nan y = true -> zero_or_nan (SFmul prec emax x y) = true.
Proof. destruct x, y; simpl; intros H; try discriminate; reflexivity. Qed.

Lemma mul_zero_l (x y : spec_float) :
  zero_or_nan x = true -> zero_or_nan (SFmul prec emax x y) = true.
Proof. destruct x, y; simpl; intros H; try discriminate; reflexivity. Qed.

Lemma div_zero_not_finite (x y : spec_float) :
  zero_or_nan y = true -> is_finite (SFdiv prec emax x y) = false.
Proof. destruct x, y; simpl; intros H; try discriminate; reflexivity. Qed.

(* A quotient by a zero is NaN or an infinity. *)
Lemma div_by_zero (x : spec_float) (s : bool) :
  SFdiv prec emax x (S754_zero s) = S754_nan
  \/ exists s', SFdiv prec emax x (S754_zero s) = S754_infinity s'.
Proof. destruct x; simpl; eauto. Qed.

Lemma mul_not_finite_r (x y : spec_float) :
  is_finite y = false -> is_finite (SFmul prec emax x y) = false.
Proof. destruct x, y; simpl; intros H; try discriminate; reflexivity. Qed.

Lemma add_not_finite_l (x y : spec_float) :
  is_finite x = false -> is_finite (SFadd prec emax x y) = false.
Proof.
  destruct x as [?|[]| |? ? ?], y as [?|[]| |? ? ?]; simpl; intros H;
    try discriminate; reflexivity.
Qed.

(* [+inf <= x] only for [x = +inf]; [x <= -inf] only for [x = -inf]. *)
Lemma leb_pinf (x : spec_float) : x <> pinf -> SFleb pinf x = false.
Proof.
  destruct x as [?|[]| |[] ? ?]; simpl; intros H; try reflexivity.
  now elim H.
Qed.

Lemma leb_ninf (x : spec_float) : x <> ninf -> SFleb x ninf = false.
Proof.
  destruct x as [?|[]| |[] ? ?]; simpl; intros H; try reflexivity.
  now elim H.
Qed.

Lemma leb_nan_l (x : spec_float) : SFleb S754_nan x = false.
Proof. reflexivity. Qed.

Lemma leb_nan_r (x : spec_float) : SFleb x S754_nan = false.
Proof. destruct x; reflexivity. Qed.

End Binary32Facts.

(* ================================================================== *)
(** ** C5: rays parallel to a plane *)

Module PlaneParallel.
Import Binary32 Binary32Facts Samples.

(** C5, where the claim fails.  The ray along +x through the origin is
    parallel to the plane y = 1: the dot product of its direction and the
    plane normal is +0.  The quotient [1 / +0] is +infinity, and with the
    interval [0.0001, +infinity] the test reports a hit at [t = +infinity]. *)
Lemma C5_parallel_ray_hits_at_infinity :
  Dot (ray_direction ray_along_x) (plane_normal plane_y1) = S754_zero false
  /\ plane_t plane_y1 ray_along_x = pinf
  /\ HitTest_Plane plane_y1 ray_along_x HitRecord_init false
     = (true, mkHit (V 0 0 0) (V 0 1 0) pinf true 0).
Proof. repeat split; vm_compute; reflexivity. Qed.

(** C5 as amended.  In binary32, for every plane and every ray whose
    direction has a zero dot product with the plane normal, [HitTest_Plane]
    reports no hit and leaves the record alone, provided the ray's interval
    maximum is not +infinity and its minimum is not -infinity.  Nothing
    guards the division: the quotient is NaN or an infinity, and the interval
    test turns it down. *)
Theorem C5_parallel_ray_no_hit_when_interval_bounded
    (plane : Plane spec_float) (ray : Ray spec_float)
    (hitRecord : HitRecord spec_float) (ignoreHitRecord : bool) :
  (Dot (ray_direction ray) (plane_normal plane) == f0)%fl = true ->
  ray_max ray <> pinf ->
  ray_min ray <> ninf ->
  HitTest_Plane plane ray hitRecord ignoreHitRecord = (false, hitRecord).
Proof.
  intros Hzero Hmax Hmin.
  apply eqb_zero in Hzero. destruct Hzero as [s Hs].
  unfold HitTest_Plane, plane_t. rewrite Hs.
  change (@fdiv spec_float scalar) with (SFdiv prec emax).
  change (@fleb spec_float scalar) with SFleb.
  destruct (div_by_zero
              (Dot (vsub (plane_origin plane) (ray_origin ray)) (plane_normal plane))
              s) as [Hq | [[|] Hq]]; rewrite Hq.
  - rewrite leb_nan_r. reflexivity.
  - fold ninf. rewrite (leb_ninf Hmin). reflexivity.
  - fold pinf. rewrite (leb_pinf Hmax), andb_false_r. reflexivity.
Qed.

Lemma C5_parallel_ray_no_hit_witness :
  (Dot (ray_direction ray_along_x_bounded) (plane_normal plane_y1) == f0)%fl = true
  /\ ray_max ray_along_x_bounded <> pinf
  /\ ray_min ray_along_x_bounded <> ninf
  /\ HitTest_Plane plane_y1 ray_along_x_bounded HitRecord_init false
     = (false, HitRecord_init).
Proof.
  assert (H1 : (Dot (ray_direction ray_along_x_bounded) (plane_normal plane_y1)
                == f0)%fl = true) by reflexivity.
  assert (H2 : ray_max ray_along_x_bounded <> pinf) by discriminate.
  assert (H3 : ray_min ray_along_x_bounded <> ninf) by (vm_compute; discriminate).
  split; [exact H1 | split; [exact H2 | split; [exact H3 |]]].
  exact (C5_parallel_ray_no_hit_when_interval_bounded
           plane_y1 ray_along_x_bounded HitRecord_init false H1 H2 H3).
Defined.

End PlaneParallel.

(* ================================================================== *)
(** ** C6: the Cook-Torrance division *)

Module CookTorrance.
Import Binary32 Binary32Facts Samples.

Lemma CookTorrence_scale_not_finite (hitRecord : HitRecord spec_float)
    (l v : Vector3 spec_float) :
  (Dot v (hit_normal hitRecord) == f0)%fl = true
  \/ (Dot l (hit_normal hitRecord) == f0)%fl = true ->
  is_finite (CookTorrence_scale hitRecord l v) = false.
Proof.
  intros H. unfold CookTorrence_scale.
  apply div_zero_not_finite.
  destruct H as [H | H]; apply eqb_zero in H; destruct H as [s Hs]; rewrite Hs.
  - apply mul_zero_l, mul_zero_r. reflexivity.
  - apply mul_zero_r. reflexivity.
Qed.

(** C6, where the claim fails.  The surface normal is +y, the light
    direction +y and the view direction +x, so [Dot(v, n)] is zero.  The
    factor [1 / (4 * Dot(v, n) * Dot(l, n))] is [1 / +0 = +infinity], and the
    colour returned is infinite in every channel. *)
Lemma C6_grazing_view_gives_infinite_colour :
  Dot (V 1 0 0) (hit_normal hit_up) = S754_zero false
  /\ CookTorrence_scale hit_up (V 0 1 0) (V 1 0 0) = pinf
  /\ Shade brdf_sample mirror_metal hit_up (V 0 1 0) (V 1 0 0) = mkRGB pinf pinf pinf.
Proof. repeat split; vm_compute; reflexivity. Qed.

(** C6 as amended.  The Cook-Torrance [Shade] divides by
    [4 * Dot(v, n) * Dot(l, n)] without a guard: in binary32, whenever
    [Dot(v, n)] or [Dot(l, n)] is zero, every channel of the colour it
    returns is an infinity or NaN, whatever the functions of BRDFs.h
    return and whatever the material's parameters. *)
Theorem C6_CookTorrence_Shade_unguarded (brdf : BRDFs spec_float)
    (m_Albedo : ColorRGB spec_float) (m_Metalness m_Roughness : spec_float)
    (hitRecord : HitRecord spec_float) (l v : Vector3 spec_float) :
  (Dot v (hit_normal hitRecord) == f0)%fl = true
  \/ (Dot l (hit_normal hitRecord) == f0)%fl = true ->
  let c := Shade brdf (Material_CookTorrence m_Albedo m_Metalness m_Roughness)
             hitRecord l v in
  is_finite (r c) = false /\ is_finite (g c) = false /\ is_finite (b c) = false.
Proof.
  intros H c.
  pose proof (CookTorrence_scale_not_finite hitRecord l v H) as Hs.
  unfold c, Shade, CookTorrence_Shade. cbv zeta.
  repeat split; simpl; apply add_not_finite_l, mul_not_finite_r, Hs.
Qed.

Lemma C6_CookTorrence_Shade_unguarded_witness :
  ((Dot (V 1 0 0) (hit_normal hit_up) == f0)%fl = true
   \/ (Dot (V 0 1 0) (hit_normal hit_up) == f0)%fl = true)
  /\ (let c := Shade brdf_sample mirror_metal hit_up (V 0 1 0) (V 1 0 0) in
      is_finite (r c) = false /\ is_finite (g c) = false
      /\ is_finite (b c) = false).
Proof.
  assert (H : (Dot (V 1 0 0) (hit_normal hit_up) == f0)%fl = true
              \/ (Dot (V 0 1 0) (hit_normal hit_up) == f0)%fl = true)
    by (left; reflexivity).
  split; [exact H|].
  exact (C6_CookTorrence_Shade_unguarded brdf_sample (RGB 1 1 1) (of_Z 1)
           (of_Z 0) hit_up (V 0 1 0) (V 1 0 0) H).
Defined.

End CookTorrance.

(* ================================================================== *)
(** ** C1 and C3: the bounce loop and the lighting modes *)

Section RenderLoopFacts.
Context {F : Type} {SF : Scalar F}.
Local Open Scope scalar_scope.
Variable NDEBUG : bool.
Variable brdf : BRDFs F.
Variable this : Renderer.
Variable pScene : Scene F.
Variable lights : list (Light F).
Variable materials : list (Material F).

(** C1, what the code does.  When the scene reports no hit for the view ray,
    the [else] branch adds the sky colour and the loop goes on with the same
    ray: the colour accumulated when the loop ends is the sky colour added
    once for every iteration that was left, not once. *)
Theorem C1_sky_added_in_every_remaining_iteration (remaining : nat) (bounce : Z)
    (rayDirection : Vector3 F) (viewRay : Ray F) (finalColor : ColorRGB F)
    (reflectivity multiplier : F) :
  didHit (GetClosestHit pScene viewRay HitRecord_init) = false ->
  bounce_loop NDEBUG brdf this pScene lights materials remaining bounce
    rayDirection viewRay finalColor reflectivity multiplier
  = Ok (add_sky remaining finalColor).
Proof.
  intros Hmiss. revert bounce finalColor.
  induction remaining as [|n IH]; intros bounce finalColor; simpl.
  - reflexivity.
  - rewrite Hmiss. apply IH.
Qed.

(** In the ObservedArea and Combined modes the [switch] leaves the colour
    alone when the observed area is negative. *)
Lemma accumulate_negative_observedArea (mode : LightingMode) (bounce : Z)
    (observedArea reflectivity multiplier : F)
    (radianceColor BRDFcolor finalColor : ColorRGB F) :
  mode = ObservedArea \/ mode = Combined ->
  (observedArea <? f0) = true ->
  accumulate mode bounce observedArea reflectivity multiplier radianceColor
    BRDFcolor finalColor = finalColor.
Proof.
  intros [-> | ->] Hneg; simpl; rewrite Hneg; reflexivity.
Qed.

(** In the Radiance and BRDF modes the observed area is not looked at. *)
Lemma accumulate_ignores_observedArea (mode : LightingMode) (bounce : Z)
    (observedArea observedArea' reflectivity multiplier : F)
    (radianceColor BRDFcolor finalColor : ColorRGB F) :
  mode = Radiance \/ mode = BRDF ->
  accumulate mode bounce observedArea reflectivity multiplier radianceColor
    BRDFcolor finalColor
  = accumulate mode bounce observedArea' reflectivity multiplier radianceColor
      BRDFcolor finalColor.
Proof. intros [-> | ->]; reflexivity. Qed.

(** C3 as amended.  In a build without assertions and for a hit whose
    material index is valid: when the observed-area term of a light is
    negative, the light leaves the accumulated colour unchanged in the
    ObservedArea and Combined modes. *)
Theorem C3_negative_observed_area_skipped_in_guarded_modes (bounce : Z)
    (rayDirection : Vector3 F) (closestHit : HitRecord F)
    (reflectivity multiplier : F) (finalColor : ColorRGB F) (light : Light F)
    (material : Material F) :
  m_CurrentLightingMode this = ObservedArea
  \/ m_CurrentLightingMode this = Combined ->
  (observedArea_of light closestHit <? f0) = true ->
  nth_error materials (materialIndex closestHit) = Some material ->
  light_step true brdf this pScene materials bounce rayDirection closestHit
    reflectivity multiplier finalColor light
  = Ok finalColor.
Proof.
  intros Hmode Hneg Hmat.
  unfold light_step, observedArea_of in *.
  destruct (Normalize (GetDirectionToLight light (hit_origin closestHit)))
    as [directionToLight lightDistance].
  simpl in Hneg.
  destruct (m_ShadowsEnabled this && DoesHit pScene _); [reflexivity|].
  unfold GetRadiance, at_index. rewrite Hmat. simpl.
  rewrite accumulate_negative_observedArea; auto.
Qed.

(** With assertions enabled, a light that is not skipped as shadowed ends
    the process in [GetRadiance]. *)
Lemma light_step_asserts (bounce : Z) (rayDirection : Vector3 F)
    (closestHit : HitRecord F) (reflectivity multiplier : F)
    (finalColor : ColorRGB F) (light : Light F) :
  m_ShadowsEnabled this = false ->
  light_step false brdf this pScene materials bounce rayDirection closestHit
    reflectivity multiplier finalColor light
  = AssertFailed "No Implemented Yet!"%string.
Proof.
  intros Hshadow. unfold light_step.
  destruct (Normalize (GetDirectionToLight light (hit_origin closestHit))).
  rewrite Hshadow. reflexivity.
Qed.

End RenderLoopFacts.

(* ================================================================== *)
(** ** Concrete runs in binary32 *)

Module Runs.
Import Binary32 Samples.

(** The constants written down by mantissa and exponent are binary32
    values: 24-bit mantissas in canonical form. *)
Lemma constants_are_binary32 :
  valid_binary prec emax flt_max = true
  /\ valid_binary prec emax flt_epsilon = true
  /\ valid_binary prec emax below4 = true
  /\ valid_binary prec emax two_pow_m13 = true
  /\ to_Q flt_epsilon == 1 # 8388608
  /\ to_Q below4 == 4 - (1 # 4194304)
  /\ to_Q two_pow_m13 == 1 # 8192.
Proof. repeat split; vm_compute; reflexivity. Qed.

(** C1 at a concrete input: an empty scene and three bounces.  The view ray
    misses, and the colour accumulated is three times the sky colour. *)
Lemma C1_sky_added_three_times :
  didHit (GetClosestHit empty_scene view_ray HitRecord_init) = false
  /\ bounce_loop true brdf_sample (renderer 3 Combined) empty_scene [] []
       3 0 (V 0 0 1) view_ray black f0 f1
     = Ok (add_sky 3 black)
  /\ add_sky 3 black = RGB 3 3 3.
Proof.
  assert (H : didHit (GetClosestHit empty_scene view_ray HitRecord_init) = false)
    by reflexivity.
  split; [exact H | split].
  - exact (C1_sky_added_in_every_remaining_iteration true brdf_sample
             (renderer 3 Combined) empty_scene [] [] 3 0 (V 0 0 1) view_ray
             black f0 f1 H).
  - vm_compute. reflexivity.
Defined.

(** [RenderPixel] on the empty scene: the colour handed to [MaxToOne] is the
    sky colour once for one bounce and three times for three. *)
Lemma RenderPixel_empty_scene :
  RenderPixel true brdf_sample ray_defaults (renderer 1 Combined) empty_scene
    [] [] 0 (of_Z 1) (of_Z 1) identity_camera = Ok (0%Z, RGB 1 1 1)
  /\ RenderPixel true brdf_sample ray_defaults (renderer 3 Combined) empty_scene
       [] [] 0 (of_Z 1) (of_Z 1) identity_camera = Ok (0%Z, RGB 3 3 3).
Proof. split; vm_compute; reflexivity. Qed.

(** C3, where the claim fails.  The light is behind the surface: the
    observed area is -1.  In BRDF mode the light still adds the material's
    colour, red, to the black accumulated so far. *)
Lemma C3_BRDF_mode_adds_light_behind_surface :
  observedArea_of lamp hit_down = of_Z (-1)
  /\ (observedArea_of lamp hit_down <? f0)%fl = true
  /\ light_step true brdf_sample (renderer 1 BRDF) empty_scene red_only 0
       (V 0 0 1) hit_down f0 f1 black lamp
     = Ok (RGB 1 0 0)
  /\ RGB 1 0 0 <> black.
Proof. repeat split; try (vm_compute; reflexivity). discriminate. Qed.

Lemma C3_negative_observed_area_skipped_witness :
  (m_CurrentLightingMode (renderer 1 Combined) = ObservedArea
   \/ m_CurrentLightingMode (renderer 1 Combined) = Combined)
  /\ (observedArea_of lamp hit_down <? f0)%fl = true
  /\ nth_error red_only (materialIndex hit_down) = Some (Material_SolidColor (RGB 1 0 0))
  /\ light_step true brdf_sample (renderer 1 Combined) empty_scene red_only 0
       (V 0 0 1) hit_down f0 f1 black lamp
     = Ok black.
Proof.
  assert (H1 : m_CurrentLightingMode (renderer 1 Combined) = ObservedArea
               \/ m_CurrentLightingMode (renderer 1 Combined) = Combined)
    by (right; reflexivity).
  assert (H2 : (observedArea_of lamp hit_down <? f0)%fl = true) by reflexivity.
  assert (H3 : nth_error red_only (materialIndex hit_down)
               = Some (Material_SolidColor (RGB 1 0 0))) by reflexivity.
  split; [exact H1 | split; [exact H2 | split; [exact H3 |]]].
  exact (C3_negative_observed_area_skipped_in_guarded_modes brdf_sample
           (renderer 1 Combined) empty_scene red_only 0 (V 0 0 1) hit_down
           f0 f1 black lamp H1 H2 H3).
Defined.

(** C2 at a concrete input.  The ray from the origin along +z meets the unit
    sphere around (0, 0, 5) at (0, 0, 4), at distance 4.  The normal recorded
    is (0, 0, 1), the direction from the hit point to the centre;
    normalize(hitPoint - centre) is (0, 0, -1). *)
Theorem C2_sphere_normal_points_to_centre :
  HitTest_Sphere sphere_ahead view_ray HitRecord_init false
  = (true, mkHit (V 0 0 0) (V 0 0 1) (of_Z 4) true 0)
  /\ vadd (ray_origin view_ray) (vscale (ray_direction view_ray) (of_Z 4)) = V 0 0 4
  /\ Normalized (vsub (V 0 0 4) (sphere_origin sphere_ahead)) = V 0 0 (-1)
  /\ V 0 0 1 <> V 0 0 (-1).
Proof. repeat split; try (vm_compute; reflexivity). discriminate. Qed.

(** C4 at a concrete input.  The point light of intensity 2 and colour white
    is at distance 1 from the target (0, 0, 4): intensity x colour /
    distance^2 is (2, 2, 2).  [GetRadiance] answers black when assertions are
    compiled out and aborts otherwise; for the directional light too. *)
Theorem C4_GetRadiance_is_not_implemented :
  let d := vsub (light_origin lamp) (V 0 0 4) in
  cscale (light_color lamp) (light_intensity lamp / Dot d d)%fl = RGB 2 2 2
  /\ GetRadiance true lamp (V 0 0 4) = Ok (RGB 0 0 0)
  /\ GetRadiance false lamp (V 0 0 4) = AssertFailed "No Implemented Yet!"%string
  /\ cscale (light_color sun) (light_intensity sun) = RGB 2 2 2
  /\ GetRadiance true sun (V 0 0 4) = Ok (RGB 0 0 0)
  /\ GetRadiance false sun (V 0 0 4) = AssertFailed "No Implemented Yet!"%string.
Proof. repeat split; vm_compute; reflexivity. Qed.

(** C7 at a concrete input.  The matrix of [CreateTranslation(1, 2, 3)] has
    the translation in the fourth components of its first three columns and
    (0, 0, 0, 1) as its last column: [TransformPoint] maps (5, 6, 7) to
    itself.  The overload taking a Vector3 maps it to (6, 8, 10). *)
Theorem C7_CreateTranslation_xyz_does_not_translate :
  CreateTranslation_xyz (of_Z 1) (of_Z 2) (of_Z 3)
  = mkMatrix (mkV4 (of_Z 1) (of_Z 0) (of_Z 0) (of_Z 1))
             (mkV4 (of_Z 0) (of_Z 1) (of_Z 0) (of_Z 2))
             (mkV4 (of_Z 0) (of_Z 0) (of_Z 1) (of_Z 3))
             (mkV4 (of_Z 0) (of_Z 0) (of_Z 0) (of_Z 1))
  /\ TransformPoint (CreateTranslation_xyz (of_Z 1) (of_Z 2) (of_Z 3)) (V 5 6 7)
     = V 5 6 7
  /\ TransformPoint (CreateTranslation (V 1 2 3)) (V 5 6 7) = V 6 8 10
  /\ vadd (V 5 6 7) (V 1 2 3) = V 6 8 10
  /\ V 5 6 7 <> V 6 8 10.
Proof. repeat split; try (vm_compute; reflexivity). discriminate. Qed.

(** C9, for every angle and whatever [cosf] and [sinf] return: the third
    column of [CreateRotationZ(roll)] is (0, 0, 0, 0), so the image of the
    unit Z vector has z component +0 and is not the unit Z vector.  The
    sibling [CreateRotationX] keeps its axis. *)
Theorem C9_CreateRotationZ_drops_the_z_axis
    (cosf sinf : spec_float -> spec_float) (roll : spec_float) :
  data2 (CreateRotationZ cosf sinf roll)
  = mkV4 (of_Z 0) (of_Z 0) (of_Z 0) (of_Z 0)
  /\ vz (TransformVector (CreateRotationZ cosf sinf roll) UnitZ) = S754_zero false
  /\ TransformVector (CreateRotationZ cosf sinf roll) UnitZ <> UnitZ
  /\ vx (TransformVector (CreateRotationX cosf sinf roll) UnitX) = of_Z 1.
Proof.
  repeat split; try reflexivity.
  intros H. apply (f_equal (@vz spec_float)) in H. discriminate H.
Qed.

(** With cos 0 = 1 and sin 0 = 0 the image of the unit Z vector is the zero
    vector: its length 1 becomes 0. *)
Lemma CreateRotationZ_at_zero :
  TransformVector (CreateRotationZ (fun _ => of_Z 1) (fun _ => of_Z 0) (of_Z 0))
    UnitZ = V 0 0 0
  /\ Magnitude (V 0 0 0) = of_Z 0
  /\ Magnitude (@UnitZ spec_float scalar) = of_Z 1.
Proof. repeat split; vm_compute; reflexivity. Qed.


(** The shadow ray [RenderPixel] builds towards a directional light has the
    interval maximum +infinity: the magnitude of [-direction * FLT_MAX]
    overflows. *)
Lemma directional_light_distance_is_infinite :
  snd (Normalize (GetDirectionToLight sun (V 0 0 0))) = pinf.
Proof. vm_compute. reflexivity. Qed.

(** A ray that starts at the centre of the unit sphere around (0, 0, 5):
    the nearer root is -1 and no hit is reported. *)
Lemma HitTest_Sphere_from_centre :
  sphere_ti1 sphere_ahead (mkRay (V 0 0 5) (V 0 0 1) f0_0001 FLT_MAX) = of_Z (-1)
  /\ HitTest_Sphere sphere_ahead (mkRay (V 0 0 5) (V 0 0 1) f0_0001 FLT_MAX)
       HitRecord_init false = (false, HitRecord_init).
Proof. split; vm_compute; reflexivity. Qed.

End Runs.


(* ================================================================== *)
(** * Further properties *)

(** ** Matrix.cpp, for every scalar type *)

Section MatrixFacts.
Context {F : Type} {SF : Scalar F}.

(** The two loops of [Transpose] write every entry: the result holds the
    entries of [m] with the two indices swapped, whatever [Matrix result{}]
    held. *)
Lemma Transpose_entries (fresh m : Matrix F) :
  Transpose fresh m
  = mkMatrix (mkV4 (x4 (data0 m)) (x4 (data1 m)) (x4 (data2 m)) (x4 (data3 m)))
             (mkV4 (y4 (data0 m)) (y4 (data1 m)) (y4 (data2 m)) (y4 (data3 m)))
             (mkV4 (z4 (data0 m)) (z4 (data1 m)) (z4 (data2 m)) (z4 (data3 m)))
             (mkV4 (w4 (data0 m)) (w4 (data1 m)) (w4 (data2 m)) (w4 (data3 m))).
Proof. reflexivity. Qed.

(** X1. Transposing twice gives the matrix back, for every matrix and
    whatever the value-initialised temporaries hold. *)
Theorem X1_Transpose_involutive (fresh fresh' m : Matrix F) :
  Transpose fresh' (Transpose fresh m) = m.
Proof. destruct m as [[] [] [] []]. reflexivity. Qed.

(** X2. The matrix built by [CreateTranslation(x, y, z)] is the transpose of
    the one built by [CreateTranslation(Vector3{x, y, z})], and the other way
    round. *)
Theorem X2_CreateTranslation_overloads_are_transposes (fresh : Matrix F)
    (x y z : F) :
  Transpose fresh (CreateTranslation_xyz x y z) = CreateTranslation (mkV3 x y z)
  /\ Transpose fresh (CreateTranslation (mkV3 x y z)) = CreateTranslation_xyz x y z.
Proof. split; reflexivity. Qed.

(** X3. [a *= m] leaves in [a] the matrix [a * m] returns, and neither
    depends on what the value-initialised temporary holds: all sixteen
    entries are written, each read from the copy. *)
Theorem X3_mul_assign_agrees_with_mul (fresh fresh' a m : Matrix F) :
  Matrix_mul_assign fresh a m = Matrix_mul fresh a m
  /\ Matrix_mul fresh a m = Matrix_mul fresh' a m.
Proof. destruct a as [[] [] [] []]. split; reflexivity. Qed.

End MatrixFacts.


(* ================================================================== *)
(** ** The hit tests: what a call leaves in the record *)

Section HitRecordFacts.
Context {F : Type} {SF : Scalar F}.
Local Open Scope scalar_scope.

(** X15. A record-building call that reports no hit leaves the record as it
    was.  One that reports a hit sets [didHit], stores the origin of the ray
    (not the hit point) as [origin], a distance [t] with
    [ray.min <= t <= ray.max], and the material index of the primitive; the
    plane test stores the plane's normal as it is. *)
Theorem X15_hit_record_after_the_test (sphere : Sphere F) (plane : Plane F)
    (ray : Ray F) (hitRecord : HitRecord F) :
  (let '(hit, h) := HitTest_Sphere sphere ray hitRecord false in
   if hit
   then didHit h = true /\ hit_origin h = ray_origin ray
        /\ (hit_t h >=? ray_min ray) = true /\ (hit_t h <=? ray_max ray) = true
        /\ materialIndex h = sphere_materialIndex sphere
   else h = hitRecord)
  /\ (let '(hit, h) := HitTest_Plane plane ray hitRecord false in
      if hit
      then didHit h = true /\ hit_origin h = ray_origin ray
           /\ hit_normal h = plane_normal plane
           /\ (hit_t h >=? ray_min ray) = true
           /\ (hit_t h <=? ray_max ray) = true
           /\ materialIndex h = plane_materialIndex plane
      else h = hitRecord).
Proof.
  split.
  - unfold HitTest_Sphere.
    destruct (sphere_ti1 sphere ray >=? ray_min ray) eqn:E1;
      destruct (sphere_ti1 sphere ray <=? ray_max ray) eqn:E2; simpl; auto 10.
  - unfold HitTest_Plane.
    destruct (plane_t plane ray >=? ray_min ray) eqn:E1;
      destruct (plane_t plane ray <=? ray_max ray) eqn:E2; simpl; auto 10.
Qed.

End HitRecordFacts.

(* ================================================================== *)
(** ** The hit tests in binary32 *)

Module Binary32HitFacts.
Import Binary32 Binary32Facts Samples MoreSamples.

Lemma sqrt_of_negative (x : spec_float) :
  SFltb x (of_Z 0) = true -> SFsqrt prec emax x = S754_nan.
Proof.
  destruct x as [s|[]| |[] m e]; simpl; intros H; try discriminate; reflexivity.
Qed.

Lemma sub_nan_r (x : spec_float) : SFsub prec emax x S754_nan = S754_nan.
Proof. destruct x; reflexivity. Qed.

(** X16. When [Square(radius) - odSqr] is negative, that is when the line of
    the ray passes the centre at more than the radius, [HitTest_Sphere]
    reports no hit and leaves the record alone: the square root is NaN, and
    every comparison with NaN is false. *)
Theorem X16_sphere_missed_reports_no_hit (sphere : Sphere spec_float)
    (ray : Ray spec_float) (hitRecord : HitRecord spec_float)
    (ignoreHitRecord : bool) :
  (Square (sphere_radius sphere) - sphere_odSqr sphere ray <? f0)%fl = true ->
  HitTest_Sphere sphere ray hitRecord ignoreHitRecord = (false, hitRecord).
Proof.
  intros H. unfold HitTest_Sphere, sphere_ti1, sphere_tca.
  change (@fsqrt spec_float scalar) with (SFsqrt prec emax).
  rewrite (sqrt_of_negative _ H).
  change (@fsub spec_float scalar) with (SFsub prec emax).
  rewrite sub_nan_r.
  change (@fleb spec_float scalar) with SFleb.
  rewrite leb_nan_r. reflexivity.
Qed.

Lemma X16_sphere_missed_witness :
  (Square (sphere_radius sphere_aside) - sphere_odSqr sphere_aside view_ray
   <? f0)%fl = true
  /\ HitTest_Sphere sphere_aside view_ray HitRecord_init false
     = (false, HitRecord_init).
Proof.
  assert (H : (Square (sphere_radius sphere_aside)
               - sphere_odSqr sphere_aside view_ray <? f0)%fl = true)
    by (vm_compute; reflexivity).
  split; [exact H|].
  exact (X16_sphere_missed_reports_no_hit sphere_aside view_ray HitRecord_init
           false H).
Defined.

(** X17. The distance recorded for a reported hit is never NaN, for the
    sphere test and for the plane test. *)
Theorem X17_reported_distance_is_not_NaN (sphere : Sphere spec_float)
    (plane : Plane spec_float) (ray : Ray spec_float)
    (hitRecord : HitRecord spec_float) :
  (fst (HitTest_Sphere sphere ray hitRecord false) = true ->
   is_nan (hit_t (snd (HitTest_Sphere sphere ray hitRecord false))) = false)
  /\ (fst (HitTest_Plane plane ray hitRecord false) = true ->
      is_nan (hit_t (snd (HitTest_Plane plane ray hitRecord false))) = false).
Proof.
  split.
  - unfold HitTest_Sphere. change (@fleb spec_float scalar) with SFleb.
    destruct (SFleb (ray_min ray) (sphere_ti1 sphere ray)) eqn:E1;
      destruct (SFleb (sphere_ti1 sphere ray) (ray_max ray)) eqn:E2;
      cbn [andb fst snd hit_t]; intros H; try discriminate H.
    set (t := sphere_ti1 sphere ray) in *. clearbody t.
    destruct t; try reflexivity. rewrite leb_nan_r in E1. discriminate.
  - unfold HitTest_Plane. change (@fleb spec_float scalar) with SFleb.
    destruct (SFleb (ray_min ray) (plane_t plane ray)) eqn:E1;
      destruct (SFleb (plane_t plane ray) (ray_max ray)) eqn:E2;
      cbn [andb fst snd hit_t]; intros H; try discriminate H.
    set (t := plane_t plane ray) in *. clearbody t.
    destruct t; try reflexivity. rewrite leb_nan_r in E1. discriminate.
Qed.

Lemma X17_reported_distance_witness :
  fst (HitTest_Sphere sphere_ahead view_ray HitRecord_init false) = true
  /\ is_nan (hit_t (snd (HitTest_Sphere sphere_ahead view_ray HitRecord_init
                           false))) = false
  /\ fst (HitTest_Plane plane_y1 ray_along_y HitRecord_init false) = true
  /\ is_nan (hit_t (snd (HitTest_Plane plane_y1 ray_along_y HitRecord_init
                           false))) = false.
Proof.
  assert (H1 : fst (HitTest_Sphere sphere_ahead view_ray HitRecord_init false)
               = true) by (vm_compute; reflexivity).
  assert (H2 : fst (HitTest_Plane plane_y1 ray_along_y HitRecord_init false)
               = true) by (vm_compute; reflexivity).
  pose proof (X17_reported_distance_is_not_NaN sphere_ahead plane_y1 view_ray
                HitRecord_init) as [Hs _].
  pose proof (X17_reported_distance_is_not_NaN sphere_ahead plane_y1 ray_along_y
                HitRecord_init) as [_ Hp].
  split; [exact H1 | split; [exact (Hs H1) | split; [exact H2 | exact (Hp H2)]]].
Defined.

End Binary32HitFacts.


(* ================================================================== *)
(** ** Renderer.cpp: the bounce loop, for every scalar type *)

Section BounceLoopFacts.
Context {F : Type} {SF : Scalar F}.
Local Open Scope scalar_scope.
Variable NDEBUG : bool.
Variable brdf : BRDFs F.
Variable rd : RayDefaults F.
Variable this : Renderer.
Variable pScene : Scene F.
Variable lights : list (Light F).
Variable materials : list (Material F).

(* A hit on a material whose reflectivity is below FLT_EPSILON ends the
   loop: further iterations change nothing. *)
Lemma bounce_loop_stops_when_not_reflective (remaining : nat) (bounce : Z)
    (rayDirection : Vector3 F) (viewRay : Ray F) (finalColor : ColorRGB F)
    (reflectivity multiplier : F) (material : Material F) :
  didHit (GetClosestHit pScene viewRay HitRecord_init) = true ->
  nth_error materials (materialIndex (GetClosestHit pScene viewRay HitRecord_init))
  = Some material ->
  (GetReflectivity material <? FLT_EPSILON) = true ->
  bounce_loop NDEBUG brdf this pScene lights materials (S remaining) bounce
    rayDirection viewRay finalColor reflectivity multiplier
  = bounce_loop NDEBUG brdf this pScene lights materials 1 bounce rayDirection
      viewRay finalColor reflectivity multiplier.
Proof.
  intros Hhit Hmat Hr. simpl. rewrite Hhit.
  destruct (light_loop _ _ _ _ _ _ _ _ _ _ _ _); simpl; try reflexivity.
  unfold at_index. rewrite Hmat. simpl. rewrite Hr. reflexivity.
Qed.

(** X21. With reflections disabled, a pixel whose view ray hits something
    is shaded by the first iteration alone: the result is the same for
    every bounce count of at least one. *)
Theorem X21_reflections_disabled_one_bounce (remaining : nat) (bounce : Z)
    (rayDirection : Vector3 F) (viewRay : Ray F) (finalColor : ColorRGB F)
    (reflectivity multiplier : F) :
  m_ReflectionsEnabled this = false ->
  didHit (GetClosestHit pScene viewRay HitRecord_init) = true ->
  bounce_loop NDEBUG brdf this pScene lights materials (S remaining) bounce
    rayDirection viewRay finalColor reflectivity multiplier
  = bounce_loop NDEBUG brdf this pScene lights materials 1 bounce rayDirection
      viewRay finalColor reflectivity multiplier.
Proof.
  intros Hoff Hhit. simpl. rewrite Hhit, Hoff. simpl.
  destruct (light_loop _ _ _ _ _ _ _ _ _ _ _ _); simpl; try reflexivity.
  destruct (at_index _ _); simpl; try reflexivity.
  rewrite !orb_true_r. reflexivity.
Qed.

(** X23. With a bounce count of zero or less, [RenderPixel] never queries
    the scene and hands black to the buffer cell of its pixel. *)
Theorem X23_no_bounces_black_pixel (pixelIndex : Z) (fov aspectRatio : F)
    (camera : Camera F) :
  (m_Bounces this <= 0)%Z ->
  (0 < m_Width this)%Z ->
  RenderPixel NDEBUG brdf rd this pScene lights materials pixelIndex fov
    aspectRatio camera
  = Ok (pixelIndex, black).
Proof.
  intros Hb Hw. unfold RenderPixel.
  replace (Z.to_nat (m_Bounces this)) with 0%nat by lia. simpl.
  do 2 f_equal.
  rewrite Z.add_comm, Z.mul_comm. symmetry. apply Z.div_mod. lia.
Qed.

(** X24. For a positive image width and a pixel index that is not negative,
    the buffer cell [px + py * m_Width] that [RenderPixel] writes is the cell
    with the index of the pixel: two pixels never share a cell. *)
Theorem X24_pixel_writes_its_own_cell (pixelIndex : Z) (fov aspectRatio : F)
    (camera : Camera F) :
  (0 < m_Width this)%Z ->
  (0 <= pixelIndex)%Z ->
  match RenderPixel NDEBUG brdf rd this pScene lights materials pixelIndex fov
          aspectRatio camera with
  | Ok (cell, _) => cell = pixelIndex
  | _ => True
  end.
Proof.
  intros Hw _. unfold RenderPixel.
  destruct (bounce_loop _ _ _ _ _ _ _ _ _ _ _ _ _); simpl; auto.
  rewrite Z.add_comm, Z.mul_comm. symmetry. apply Z.div_mod. lia.
Qed.

(** X25. With shadows enabled and every shadow ray reported as occluded,
    the loop over the lights leaves the accumulated colour unchanged, in
    every lighting mode, and ends without reaching [GetRadiance]: it does
    not abort even when assertions are enabled. *)
Theorem X25_occluded_lights_add_nothing (bounce : Z) (rayDirection : Vector3 F)
    (closestHit : HitRecord F) (reflectivity multiplier : F)
    (finalColor : ColorRGB F) :
  m_ShadowsEnabled this = true ->
  (forall ray, DoesHit pScene ray = true) ->
  light_loop NDEBUG brdf this pScene materials bounce rayDirection closestHit
    reflectivity multiplier finalColor lights
  = Ok finalColor.
Proof.
  intros Hs Hall. induction lights as [|l ls IH]; simpl; [reflexivity|].
  unfold light_step.
  destruct (Normalize (GetDirectionToLight l (hit_origin closestHit))).
  rewrite Hs, Hall. simpl. exact IH.
Qed.

End BounceLoopFacts.

(** X27. The lighting mode cycles with period four: four calls of
    [CycleLightingMode] restore the mode, one, two or three calls never do,
    and any number of calls amounts to that number modulo four. *)
Theorem X27_CycleLightingMode_has_period_four (n : nat) (mode : LightingMode) :
  cycle_n 4 mode = mode
  /\ cycle_n 1 mode <> mode /\ cycle_n 2 mode <> mode /\ cycle_n 3 mode <> mode
  /\ cycle_n n mode = cycle_n (n mod 4) mode.
Proof.
  assert (Hadd : forall a k m, cycle_n (a + k) m = cycle_n k (cycle_n a m)).
  { induction a as [|a IH]; intros k m; simpl; auto. }
  split; [destruct mode; reflexivity|].
  split; [destruct mode; discriminate|].
  split; [destruct mode; discriminate|].
  split; [destruct mode; discriminate|].
  rewrite (Nat.div_mod_eq n 4) at 1.
  rewrite Hadd. f_equal.
  induction (n / 4)%nat as [|q IH]; [reflexivity|].
  replace (4 * S q)%nat with (4 + 4 * q)%nat by lia.
  rewrite Hadd. destruct mode; exact IH.
Qed.

(* ================================================================== *)
(** ** Renderer.cpp: the task split of the ASYNC variant *)

Section TaskSplit.
Local Open Scope Z_scope.

Lemma range_empty (a c : Z) : c <= a -> range a c = [].
Proof.
  intros H. unfold range.
  replace (Z.to_nat (c - a)) with 0%nat by lia. reflexivity.
Qed.

Lemma range_cons (a c : Z) : a < c -> range a c = a :: range (a + 1) c.
Proof.
  intros H. unfold range.
  replace (Z.to_nat (c - a)) with (S (Z.to_nat (c - (a + 1)))) by lia.
  simpl. f_equal; [lia|].
  rewrite <- seq_shift, map_map. apply map_ext. intros i. lia.
Qed.

Lemma range_app (a c d : Z) :
  a <= c -> c <= d -> range a c ++ range c d = range a d.
Proof.
  intros Hac Hcd.
  remember (Z.to_nat (c - a)) as n eqn:Hn. revert a Hac Hn.
  induction n as [|n IH]; intros a Hac Hn.
  - assert (a = c) by lia. subst. rewrite range_empty by lia. reflexivity.
  - rewrite (@range_cons a c), (@range_cons a d) by lia. simpl. f_equal.
    apply IH; lia.
Qed.

Lemma u32_small (z : Z) : 0 <= z < 2 ^ 32 -> u32 z = z.
Proof. intros H. unfold u32. apply Z.mod_small. exact H. Qed.

(* The tasks created from [currPixelIndex] on take the next
   [cores * pixelsPerTask + unassignedPixels] indices, in order. *)
Lemma async_tasks_cover (cores : nat) (q u curr : Z) :
  0 <= q -> 0 <= u <= Z.of_nat cores -> 0 <= curr ->
  curr + Z.of_nat cores * q + u < 2 ^ 32 ->
  List.concat (async_tasks cores q u curr)
  = range curr (curr + Z.of_nat cores * q + u).
Proof.
  revert u curr. induction cores as [|k IH]; intros u curr Hq Hu Hc Hlt.
  - simpl. rewrite range_empty by lia. reflexivity.
  - cbn [async_tasks].
    destruct (0 <? u) eqn:E.
    + apply Z.ltb_lt in E.
      rewrite (@u32_small (q + 1)), (@u32_small (u - 1)),
        (@u32_small (curr + (q + 1))) by nia.
      cbn [List.concat]. rewrite IH by nia.
      rewrite range_app by nia. f_equal. nia.
    + apply Z.ltb_ge in E. assert (u = 0) by lia. subst u.
      rewrite (@u32_small (curr + q)) by nia.
      cbn [List.concat]. rewrite IH by nia.
      rewrite range_app by nia. f_equal. nia.
Qed.

(** X29. In the ASYNC variant of [Render], for a pixel count and a core
    count that fit in 32 bits and at least one core: one task is created per
    core, and the pixel indices of the tasks, one task after the other, are
    0, 1, ..., numPixels - 1, each exactly once. *)
Theorem X29_async_tasks_cover_every_pixel_once (numPixels numCores : Z) :
  0 <= numPixels < 2 ^ 32 -> 0 < numCores < 2 ^ 32 ->
  List.concat (Render_async_tasks numPixels numCores) = range 0 numPixels
  /\ List.length (Render_async_tasks numPixels numCores) = Z.to_nat numCores.
Proof.
  intros Hp Hc. unfold Render_async_tasks.
  pose proof (Z.div_mod numPixels numCores ltac:(lia)) as Hdm.
  pose proof (Z.mod_pos_bound numPixels numCores ltac:(lia)) as Hm.
  pose proof (Z.div_pos numPixels numCores ltac:(lia) ltac:(lia)) as Hd.
  split.
  - rewrite async_tasks_cover by nia. f_equal. nia.
  - generalize (numPixels / numCores) (numPixels mod numCores) 0.
    induction (Z.to_nat numCores); intros; cbn [async_tasks]; [reflexivity|].
    destruct (0 <? z0); cbn [List.length]; f_equal; apply IHn.
Qed.

Lemma X29_async_tasks_witness :
  0 <= 10 < 2 ^ 32 /\ 0 < 4 < 2 ^ 32
  /\ Render_async_tasks 10 4 = [[0; 1; 2]; [3; 4; 5]; [6; 7]; [8; 9]]
  /\ List.concat (Render_async_tasks 10 4) = range 0 10
  /\ List.length (Render_async_tasks 10 4) = Z.to_nat 4.
Proof.
  assert (H1 : 0 <= 10 < 2 ^ 32) by lia.
  assert (H2 : 0 < 4 < 2 ^ 32) by lia.
  split; [exact H1 | split; [exact H2 | split; [reflexivity|]]].
  exact (X29_async_tasks_cover_every_pixel_once H1 H2).
Defined.

End TaskSplit.

(* ================================================================== *)
(** ** Renderer.cpp in binary32 *)

Module Binary32RenderFacts.
Import Binary32 Binary32Facts Samples MoreSamples.

Lemma eqb_refl_not_nan (x : spec_float) : x <> S754_nan -> SFeqb x x = true.
Proof.
  destruct x as [s|[]| |[] m e]; intros H; try reflexivity; try (now elim H);
    unfold SFeqb, SFcompare;
    rewrite Z.compare_refl, Pos.compare_cont_refl; reflexivity.
Qed.

Lemma same_or_nan_refl (x : spec_float) : same_or_nan x x = true.
Proof.
  destruct x as [s|[]| |[] m e]; try reflexivity;
    apply eqb_refl_not_nan; discriminate.
Qed.

(* Adding a zero or a NaN leaves a value as it is, up to the sign of a
   zero, or makes it NaN. *)
Lemma add_zero_or_nan (x y : spec_float) :
  zero_or_nan y = true -> same_or_nan x (SFadd prec emax x y) = true.
Proof.
  destruct y as [sy| | |]; try discriminate; intros _.
  - destruct x as [[] |[]| |[] m e], sy; try reflexivity;
      simpl; unfold SFeqb, SFcompare;
      rewrite Z.compare_refl, Pos.compare_cont_refl; reflexivity.
  - destruct x; reflexivity.
Qed.

Lemma accumulate_black_radiance (mode : LightingMode) (bounce : Z)
    (observedArea reflectivity multiplier : spec_float)
    (BRDFcolor finalColor : ColorRGB spec_float) :
  mode = Radiance \/ mode = Combined ->
  channels_same_or_nan finalColor
    (accumulate mode bounce observedArea reflectivity multiplier black
       BRDFcolor finalColor).
Proof.
  intros [-> | ->]; unfold accumulate.
  - repeat split; cbn [r g b cadd black];
      change (@fadd spec_float scalar) with (SFadd prec emax);
      apply add_zero_or_nan; reflexivity.
  - destruct (observedArea <? f0)%fl.
    + repeat split; apply same_or_nan_refl.
    + destruct (0 <? bounce)%Z; repeat split;
        cbn [r g b cadd cscale cmul black];
        change (@fadd spec_float scalar) with (SFadd prec emax);
        change (@fmul spec_float scalar) with (SFmul prec emax);
        apply add_zero_or_nan; repeat apply mul_zero_l; reflexivity.
Qed.

(** X22. A hit on a solid-colour, Lambert or Lambert-Phong material ends
    the bounce loop, reflections enabled or not: the result is the same for
    every bounce count of at least one. *)
Theorem X22_only_CookTorrence_reflects (NDEBUG : bool)
    (brdf : BRDFs spec_float) (this : Renderer) (pScene : Scene spec_float)
    (lights : list (Light spec_float)) (materials : list (Material spec_float))
    (remaining : nat) (bounce : Z) (rayDirection : Vector3 spec_float)
    (viewRay : Ray spec_float) (finalColor : ColorRGB spec_float)
    (reflectivity multiplier : spec_float) (material : Material spec_float) :
  didHit (GetClosestHit pScene viewRay HitRecord_init) = true ->
  nth_error materials (materialIndex (GetClosestHit pScene viewRay HitRecord_init))
  = Some material ->
  (forall a m rg, material <> Material_CookTorrence a m rg) ->
  bounce_loop NDEBUG brdf this pScene lights materials (S remaining) bounce
    rayDirection viewRay finalColor reflectivity multiplier
  = bounce_loop NDEBUG brdf this pScene lights materials 1 bounce rayDirection
      viewRay finalColor reflectivity multiplier.
Proof.
  intros Hhit Hmat Hnot.
  apply (@bounce_loop_stops_when_not_reflective _ _ NDEBUG brdf this pScene
           lights materials remaining bounce rayDirection viewRay finalColor
           reflectivity multiplier material Hhit Hmat).
  destruct material; try reflexivity.
  exfalso. eapply Hnot. reflexivity.
Qed.

Lemma X22_only_CookTorrence_reflects_witness :
  didHit (GetClosestHit (solid_scene hit_ahead) view_ray HitRecord_init) = true
  /\ nth_error red_only
       (materialIndex (GetClosestHit (solid_scene hit_ahead) view_ray HitRecord_init))
     = Some (Material_SolidColor (RGB 1 0 0))
  /\ (forall a m rg,
        Material_SolidColor (RGB 1 0 0) <> Material_CookTorrence a m rg)
  /\ bounce_loop true brdf_sample (renderer 3 BRDF) (solid_scene hit_ahead)
       [lamp] red_only 3 0 (V 0 0 1) view_ray black f0 f1
     = bounce_loop true brdf_sample (renderer 3 BRDF) (solid_scene hit_ahead)
         [lamp] red_only 1 0 (V 0 0 1) view_ray black f0 f1.
Proof.
  assert (H1 : didHit (GetClosestHit (solid_scene hit_ahead) view_ray
                         HitRecord_init) = true) by reflexivity.
  assert (H2 : nth_error red_only
                 (materialIndex (GetClosestHit (solid_scene hit_ahead) view_ray
                                   HitRecord_init))
               = Some (Material_SolidColor (RGB 1 0 0))) by reflexivity.
  assert (H3 : forall a m rg,
             Material_SolidColor (RGB 1 0 0) <> Material_CookTorrence a m rg)
    by (intros; discriminate).
  split; [exact H1 | split; [exact H2 | split; [exact H3 |]]].
  exact (@X22_only_CookTorrence_reflects true brdf_sample (renderer 3 BRDF)
           (solid_scene hit_ahead) [lamp] red_only 2 0 (V 0 0 1) view_ray
           black f0 f1 (Material_SolidColor (RGB 1 0 0)) H1 H2 H3).
Defined.

(** X26. In a build without assertions, in the Radiance and Combined modes,
    a light never changes a channel of the accumulated colour except to
    NaN: [GetRadiance] returns black, so what is added is a zero or NaN. *)
Theorem X26_black_radiance_lights_nothing (brdf : BRDFs spec_float)
    (this : Renderer) (pScene : Scene spec_float)
    (materials : list (Material spec_float)) (bounce : Z)
    (rayDirection : Vector3 spec_float) (closestHit : HitRecord spec_float)
    (reflectivity multiplier : spec_float) (finalColor c : ColorRGB spec_float)
    (light : Light spec_float) :
  m_CurrentLightingMode this = Radiance
  \/ m_CurrentLightingMode this = Combined ->
  light_step true brdf this pScene materials bounce rayDirection closestHit
    reflectivity multiplier finalColor light = Ok c ->
  channels_same_or_nan finalColor c.
Proof.
  intros Hmode. unfold light_step.
  destruct (Normalize (GetDirectionToLight light (hit_origin closestHit)))
    as [d dist].
  destruct (m_ShadowsEnabled this && DoesHit pScene _).
  - intros [= <-]. repeat split; apply same_or_nan_refl.
  - unfold GetRadiance. simpl.
    destruct (at_index materials (materialIndex closestHit)); simpl;
      try discriminate.
    intros [= <-]. apply accumulate_black_radiance. exact Hmode.
Qed.

Lemma X26_black_radiance_witness :
  (m_CurrentLightingMode (renderer 1 Combined) = Radiance
   \/ m_CurrentLightingMode (renderer 1 Combined) = Combined)
  /\ light_step true brdf_sample (renderer 1 Combined) empty_scene red_only 0
       (V 0 0 1) hit_up f0 f1 (RGB 1 2 3) (mkLight (V 0 5 0) (V 0 0 0)
                                                (RGB 1 1 1) (of_Z 2) Point)
     = Ok (RGB 1 2 3)
  /\ channels_same_or_nan (RGB 1 2 3) (RGB 1 2 3).
Proof.
  assert (H1 : m_CurrentLightingMode (renderer 1 Combined) = Radiance
               \/ m_CurrentLightingMode (renderer 1 Combined) = Combined)
    by (right; reflexivity).
  assert (H2 : light_step true brdf_sample (renderer 1 Combined) empty_scene
                 red_only 0 (V 0 0 1) hit_up f0 f1 (RGB 1 2 3)
                 (mkLight (V 0 5 0) (V 0 0 0) (RGB 1 1 1) (of_Z 2) Point)
               = Ok (RGB 1 2 3)) by (vm_compute; reflexivity).
  split; [exact H1 | split; [exact H2 |]].
  exact (@X26_black_radiance_lights_nothing brdf_sample (renderer 1 Combined)
           empty_scene red_only 0 (V 0 0 1) hit_up f0 f1 (RGB 1 2 3) (RGB 1 2 3)
           (mkLight (V 0 5 0) (V 0 0 0) (RGB 1 1 1) (of_Z 2) Point) H1 H2).
Defined.

Lemma X21_reflections_disabled_witness :
  m_ReflectionsEnabled renderer_no_reflections = false
  /\ didHit (GetClosestHit (solid_scene hit_ahead) view_ray HitRecord_init) = true
  /\ bounce_loop true brdf_sample renderer_no_reflections (solid_scene hit_ahead)
       [lamp] [mirror_metal] 3 0 (V 0 0 1) view_ray black f0 f1
     = bounce_loop true brdf_sample renderer_no_reflections
         (solid_scene hit_ahead) [lamp] [mirror_metal] 1 0 (V 0 0 1) view_ray
         black f0 f1.
Proof.
  assert (H1 : m_ReflectionsEnabled renderer_no_reflections = false)
    by reflexivity.
  assert (H2 : didHit (GetClosestHit (solid_scene hit_ahead) view_ray
                         HitRecord_init) = true) by reflexivity.
  split; [exact H1 | split; [exact H2 |]].
  exact (@X21_reflections_disabled_one_bounce _ _ true brdf_sample
           renderer_no_reflections (solid_scene hit_ahead) [lamp] [mirror_metal]
           2 0 (V 0 0 1) view_ray black f0 f1 H1 H2).
Defined.

Lemma X23_no_bounces_witness :
  (m_Bounces (renderer 0 Combined) <= 0)%Z
  /\ (0 < m_Width (renderer 0 Combined))%Z
  /\ RenderPixel false brdf_sample ray_defaults (renderer 0 Combined)
       (solid_scene hit_ahead) [lamp] red_only 0 (of_Z 1) (of_Z 1)
       identity_camera
     = Ok (0%Z, black).
Proof.
  assert (H1 : (m_Bounces (renderer 0 Combined) <= 0)%Z) by (simpl; lia).
  assert (H2 : (0 < m_Width (renderer 0 Combined))%Z) by (simpl; lia).
  split; [exact H1 | split; [exact H2 |]].
  exact (@X23_no_bounces_black_pixel _ _ false brdf_sample ray_defaults
           (renderer 0 Combined) (solid_scene hit_ahead) [lamp] red_only 0
           (of_Z 1) (of_Z 1) identity_camera H1 H2).
Defined.

Lemma X24_pixel_cell_witness :
  (0 < m_Width renderer_4x3)%Z /\ (0 <= 7)%Z
  /\ match RenderPixel true brdf_sample ray_defaults renderer_4x3 empty_scene
             [] [] 7 (of_Z 1) (of_Z 1) identity_camera with
     | Ok (cell, _) => cell = 7%Z
     | _ => True
     end.
Proof.
  assert (H1 : (0 < m_Width renderer_4x3)%Z) by (simpl; lia).
  assert (H2 : (0 <= 7)%Z) by lia.
  split; [exact H1 | split; [exact H2 |]].
  exact (@X24_pixel_writes_its_own_cell _ _ true brdf_sample ray_defaults
           renderer_4x3 empty_scene [] [] 7 (of_Z 1) (of_Z 1) identity_camera
           H1 H2).
Defined.

(* The pixel of the witness is rendered: the call does not abort. *)
Lemma RenderPixel_4x3_pixel_7 :
  RenderPixel true brdf_sample ray_defaults renderer_4x3 empty_scene [] [] 7
    (of_Z 1) (of_Z 1) identity_camera = Ok (7%Z, RGB 1 1 1).
Proof. vm_compute. reflexivity. Qed.

Lemma X25_occluded_lights_witness :
  m_ShadowsEnabled renderer_shadows = true
  /\ (forall ray, DoesHit (solid_scene hit_ahead) ray = true)
  /\ light_loop false brdf_sample renderer_shadows (solid_scene hit_ahead)
       red_only 0 (V 0 0 1) hit_ahead f0 f1 (RGB 1 2 3) [lamp; sun]
     = Ok (RGB 1 2 3).
Proof.
  assert (H1 : m_ShadowsEnabled renderer_shadows = true) by reflexivity.
  assert (H2 : forall ray, DoesHit (solid_scene hit_ahead) ray = true)
    by (intros; reflexivity).
  split; [exact H1 | split; [exact H2 |]].
  exact (@X25_occluded_lights_add_nothing _ _ false brdf_sample renderer_shadows
           (solid_scene hit_ahead) [lamp; sun] red_only 0 (V 0 0 1) hit_ahead
           f0 f1 (RGB 1 2 3) H1 H2).
Defined.

End Binary32RenderFacts.


(* ================================================================== *)
(** ** Binary32 arithmetic yields binary32 values *)

Module Binary32WellFormed.
Import Binary32.
Local Open Scope Z_scope.

Lemma fexp_eq (x : Z) : fexp prec emax x = Z.max (x - 24) (-149).
Proof. reflexivity. Qed.

(** The number of bits of a mantissa. *)
Lemma digits2_pos_bounds (m : positive) :
  2 ^ (Zpos (digits2_pos m) - 1) <= Zpos m < 2 ^ Zpos (digits2_pos m).
Proof.
  induction m as [m IH|m IH|]; cbn [digits2_pos].
  - rewrite Pos2Z.inj_succ.
    replace (Z.succ (Zpos (digits2_pos m)) - 1)
      with (Z.succ (Zpos (digits2_pos m) - 1)) by lia.
    rewrite !Z.pow_succ_r by lia. lia.
  - rewrite Pos2Z.inj_succ.
    replace (Z.succ (Zpos (digits2_pos m)) - 1)
      with (Z.succ (Zpos (digits2_pos m) - 1)) by lia.
    rewrite !Z.pow_succ_r by lia. lia.
  - simpl. lia.
Qed.

Lemma Zdigits2_bounds (m : Z) :
  0 < m -> 2 ^ (Zdigits2 m - 1) <= m < 2 ^ Zdigits2 m.
Proof.
  destruct m as [|p|p]; try lia. intros _. apply digits2_pos_bounds.
Qed.

Lemma Zdigits2_pos_gt (m : Z) : 0 < m -> 0 < Zdigits2 m.
Proof. destruct m; simpl; lia. Qed.

Lemma Zdigits2_unique (m d : Z) :
  2 ^ (d - 1) <= m < 2 ^ d -> 0 < d -> Zdigits2 m = d.
Proof.
  intros [Hlo Hhi] Hd.
  assert (Hm : 0 < m).
  { apply Z.lt_le_trans with (2 := Hlo). apply Z.pow_pos_nonneg; lia. }
  pose proof (Zdigits2_bounds Hm) as [Hlo' Hhi'].
  pose proof (Zdigits2_pos_gt Hm) as Hd'.
  assert (H1 : d - 1 < Zdigits2 m) by (apply (Z.pow_lt_mono_r_iff 2); lia).
  assert (H2 : Zdigits2 m - 1 < d) by (apply (Z.pow_lt_mono_r_iff 2); lia).
  lia.
Qed.

Lemma Zdigits2_ge (m k : Z) : 0 <= k -> 2 ^ k <= m -> k + 1 <= Zdigits2 m.
Proof.
  intros Hk H.
  assert (Hm : 0 < m).
  { apply Z.lt_le_trans with (2 := H). apply Z.pow_pos_nonneg; lia. }
  pose proof (Zdigits2_bounds Hm) as [_ Hhi].
  pose proof (Zdigits2_pos_gt Hm).
  assert (k < Zdigits2 m) by (apply (Z.pow_lt_mono_r_iff 2); lia).
  lia.
Qed.

Lemma Zdigits2_succ (m : Z) :
  0 <= m ->
  Zdigits2 (m + 1) = Zdigits2 m
  \/ (Zdigits2 (m + 1) = Zdigits2 m + 1 /\ m + 1 = 2 ^ Zdigits2 m).
Proof.
  intros Hm.
  destruct (Z.eq_dec m 0) as [->|Hn]; [right; split; reflexivity|].
  assert (H0 : 0 < m) by lia.
  pose proof (Zdigits2_bounds H0) as [Hlo Hhi].
  pose proof (Zdigits2_pos_gt H0) as Hd.
  destruct (Z.eq_dec (m + 1) (2 ^ Zdigits2 m)) as [E|NE].
  - right. split; [|exact E].
    apply Zdigits2_unique; [|lia].
    replace (Zdigits2 m + 1 - 1) with (Zdigits2 m) by lia.
    rewrite Z.pow_add_r by lia. lia.
  - left. apply Zdigits2_unique; lia.
Qed.

(** Shifting right by one bit, and by [p] bits, takes that many bits off
    the mantissa. *)
Lemma shr_1_digits (mrs : shr_record) :
  0 <= shr_m mrs ->
  0 <= shr_m (shr_1 mrs)
  /\ Zdigits2 (shr_m (shr_1 mrs)) = Z.max (Zdigits2 (shr_m mrs) - 1) 0.
Proof.
  destruct mrs as [m r s]. cbn [shr_m]. intros H.
  destruct m as [|[p|p|]|p]; cbn [shr_1 shr_m Zdigits2 digits2_pos]; lia.
Qed.

Lemma iter_shr_1_digits (p : positive) (mrs : shr_record) :
  0 <= shr_m mrs ->
  0 <= shr_m (SpecFloat.iter_pos shr_1 p mrs)
  /\ Zdigits2 (shr_m (SpecFloat.iter_pos shr_1 p mrs))
     = Z.max (Zdigits2 (shr_m mrs) - Zpos p) 0.
Proof.
  revert mrs.
  induction p as [p IH|p IH|]; intros mrs H; cbn [SpecFloat.iter_pos].
  - destruct (shr_1_digits mrs H) as [H1 E1].
    destruct (IH _ H1) as [H2 E2]. destruct (IH _ H2) as [H3 E3].
    split; [exact H3|]. rewrite E3, E2, E1. lia.
  - destruct (IH _ H) as [H2 E2]. destruct (IH _ H2) as [H3 E3].
    split; [exact H3|]. rewrite E3, E2. lia.
  - apply shr_1_digits. exact H.
Qed.

Lemma shr_record_of_loc_m (m : Z) (l : location) :
  shr_m (shr_record_of_loc m l) = m.
Proof. destruct l as [|[]]; reflexivity. Qed.

(** The shift of [binary_round_aux] puts a mantissa with enough bits in
    place, and so does the second shift, after rounding has added one to the
    mantissa or left it. *)
Lemma shr_fexp_placed (m e : Z) (l : location) :
  0 <= m -> e <= fexp prec emax (Zdigits2 m + e) ->
  placed (shr_m (fst (shr_fexp prec emax m e l)))
         (snd (shr_fexp prec emax m e l)).
Proof.
  intros Hm Hp. unfold shr_fexp, shr, placed.
  assert (Hd : 0 <= Zdigits2 m) by (destruct m; simpl; lia).
  destruct (fexp prec emax (Zdigits2 m + e) - e) as [|n|n] eqn:E; cbn [fst snd].
  - rewrite shr_record_of_loc_m. split; [exact Hm|]. lia.
  - destruct (@iter_shr_1_digits n (shr_record_of_loc m l)) as [H1 E1].
    { rewrite shr_record_of_loc_m. exact Hm. }
    split; [exact H1|]. rewrite E1, shr_record_of_loc_m.
    rewrite fexp_eq in *. lia.
  - lia.
Qed.

Lemma round_nearest_even_cases (m : Z) (l : location) :
  round_nearest_even m l = m \/ round_nearest_even m l = m + 1.
Proof.
  destruct l as [|[]]; cbn [round_nearest_even]; auto.
  destruct (Z.even m); auto.
Qed.

Lemma shr_fexp_after_round (m e m' : Z) :
  placed m e -> m' = m \/ m' = m + 1 ->
  placed (shr_m (fst (shr_fexp prec emax m' e loc_Exact)))
         (snd (shr_fexp prec emax m' e loc_Exact)).
Proof.
  intros [Hm Hc] Hr.
  apply shr_fexp_placed.
  - lia.
  - destruct Hr as [->| ->]; [lia|].
    destruct (Zdigits2_succ Hm) as [-> | [-> _]]; [lia|].
    rewrite fexp_eq in *. lia.
Qed.

(** Rounding a mantissa that has enough bits for its exponent gives a
    binary32 value. *)
Lemma binary_round_aux_valid (s : bool) (m e : Z) (l : location) :
  0 <= m -> e <= fexp prec emax (Zdigits2 m + e) ->
  valid_binary prec emax (binary_round_aux prec emax s m e l) = true.
Proof.
  intros Hm Hp. unfold binary_round_aux.
  pose proof (shr_fexp_placed l Hm Hp) as H1.
  destruct (shr_fexp prec emax m e l) as [mrs' e']. cbn [fst snd] in H1.
  pose proof (shr_fexp_after_round H1
                (round_nearest_even_cases (shr_m mrs') (loc_of_shr_record mrs')))
    as H2.
  destruct (shr_fexp prec emax _ e' loc_Exact) as [mrs'' e''].
  cbn [fst snd] in H2. destruct H2 as [H2 C2].
  destruct (shr_m mrs'') as [|p|p]; try reflexivity.
  destruct (e'' <=? emax - prec) eqn:E; [|reflexivity].
  cbn [valid_binary]. unfold bounded, canonical_mantissa.
  rewrite E, andb_true_r. apply Z.eqb_eq. exact C2.
Qed.

Lemma digits2_pos_iter_xO (m d : positive) :
  Zpos (digits2_pos (Pos.iter xO m d)) = Zpos (digits2_pos m) + Zpos d.
Proof.
  induction d as [|d IH] using Pos.peano_ind.
  - cbn [Pos.iter digits2_pos]. lia.
  - rewrite Pos.iter_succ. cbn [digits2_pos]. lia.
Qed.

Lemma binary_round_valid (s : bool) (m : positive) (e : Z) :
  valid_binary prec emax (binary_round prec emax s m e) = true.
Proof.
  unfold binary_round, shl_align.
  destruct (fexp prec emax (Zpos (digits2_pos m) + e) - e) as [|d|d] eqn:E;
    apply binary_round_aux_valid; try lia; cbn [Zdigits2].
  - lia.
  - lia.
  - rewrite digits2_pos_iter_xO. change (Zneg d) with (- Zpos d) in E.
    replace (Zpos (digits2_pos m) + Zpos d
             + fexp prec emax (Zpos (digits2_pos m) + e))
      with (Zpos (digits2_pos m) + e) by lia.
    lia.
Qed.

Lemma binary_normalize_valid (z e : Z) (s : bool) :
  valid_binary prec emax (binary_normalize prec emax z e s) = true.
Proof. destruct z; [reflexivity | apply binary_round_valid ..]. Qed.

(** Sums, differences, products and square roots of binary32 values are
    binary32 values. *)
Lemma SFadd_valid (x y : spec_float) :
  valid_binary prec emax x = true -> valid_binary prec emax y = true ->
  valid_binary prec emax (SFadd prec emax x y) = true.
Proof.
  intros Vx Vy.
  destruct x as [[]|[]| |sx mx ex], y as [[]|[]| |sy my ey];
    try reflexivity; try assumption.
  apply binary_normalize_valid.
Qed.

Lemma SFsub_valid (x y : spec_float) :
  valid_binary prec emax x = true -> valid_binary prec emax y = true ->
  valid_binary prec emax (SFsub prec emax x y) = true.
Proof.
  intros Vx Vy.
  destruct x as [[]|[]| |sx mx ex], y as [[]|[]| |sy my ey];
    try reflexivity; try assumption.
  apply binary_normalize_valid.
Qed.

Lemma canonical_fexp (s : bool) (m : positive) (e : Z) :
  valid_binary prec emax (S754_finite s m e) = true ->
  fexp prec emax (Zpos (digits2_pos m) + e) = e.
Proof.
  cbn [valid_binary]. unfold bounded, canonical_mantissa. intros H.
  apply andb_true_iff in H. destruct H as [H _]. apply Z.eqb_eq. exact H.
Qed.

Lemma digits2_pos_mul (m1 m2 : positive) :
  Zpos (digits2_pos m1) + Zpos (digits2_pos m2) - 1
  <= Zpos (digits2_pos (m1 * m2)).
Proof.
  pose proof (digits2_pos_bounds m1) as [L1 _].
  pose proof (digits2_pos_bounds m2) as [L2 _].
  set (d1 := Zpos (digits2_pos m1)) in *.
  set (d2 := Zpos (digits2_pos m2)) in *.
  assert (H1 : 0 < d1) by (unfold d1; lia).
  assert (H2 : 0 < d2) by (unfold d2; lia).
  change (Zpos (digits2_pos (m1 * m2))) with (Zdigits2 (Zpos (m1 * m2))).
  replace (d1 + d2 - 1) with ((d1 - 1) + (d2 - 1) + 1) by lia.
  apply Zdigits2_ge; [lia|].
  rewrite Z.pow_add_r by lia. rewrite Pos2Z.inj_mul.
  apply Z.mul_le_mono_nonneg; try assumption; apply Z.pow_nonneg; lia.
Qed.

Lemma SFmul_valid (x y : spec_float) :
  valid_binary prec emax x = true -> valid_binary prec emax y = true ->
  valid_binary prec emax (SFmul prec emax x y) = true.
Proof.
  intros Vx Vy.
  destruct x as [sx|sx| |sx mx ex], y as [sy|sy| |sy my ey]; try reflexivity.
  cbn [SFmul]. apply binary_round_aux_valid; [lia|].
  cbn [Zdigits2].
  pose proof (canonical_fexp sx mx ex Vx) as Cx.
  pose proof (canonical_fexp sy my ey Vy) as Cy.
  pose proof (digits2_pos_mul mx my).
  rewrite fexp_eq in *. lia.
Qed.

Lemma sqrt_core_placed (m : positive) (e : Z) :
  let '(q, e', l) := SFsqrt_core_binary prec emax (Zpos m) e in
  0 <= q /\ e' <= fexp prec emax (Zdigits2 q + e').
Proof.
  unfold SFsqrt_core_binary. cbn [Zdigits2].
  set (d := Zpos (digits2_pos m)).
  set (e' := Z.min (fexp prec emax (Z.div2 (d + e + 1))) (Z.div2 e)).
  set (s := e - 2 * e').
  set (m' := match s with
             | Zpos _ => Z.shiftl (Zpos m) s
             | Z0 => Zpos m
             | Zneg _ => 0
             end).
  pose proof (Z.sqrtrem_sqrt m') as Hq.
  destruct (Z.sqrtrem m') as [q r]. cbn [fst] in Hq. subst q.
  split; [apply Z.sqrt_nonneg|].
  assert (Hd : 0 < d) by (unfold d; lia).
  assert (Hs : 0 <= s).
  { unfold s, e'. rewrite (Z.div2_div e). Z.div_mod_to_equations. lia. }
  assert (Hm' : m' = Zpos m * 2 ^ s).
  { unfold m'. destruct s as [|p|p] eqn:Es; [simpl; lia | | lia].
    rewrite Z.shiftl_mul_pow2 by lia. reflexivity. }
  pose proof (digits2_pos_bounds m) as [Lo _]. fold d in Lo.
  set (k := (d - 1 + s) / 2).
  assert (Hk : 0 <= k) by (unfold k; Z.div_mod_to_equations; lia).
  assert (Hsq : 2 ^ k * 2 ^ k <= m').
  { rewrite Hm', <- Z.pow_add_r by lia.
    apply Z.le_trans with (2 ^ (d - 1 + s)).
    - apply Z.pow_le_mono_r; unfold k; Z.div_mod_to_equations; lia.
    - rewrite Z.pow_add_r by lia.
      apply Z.mul_le_mono_nonneg_r; [apply Z.pow_nonneg; lia | exact Lo]. }
  assert (Hroot : 2 ^ k <= Z.sqrt m').
  { apply Z.sqrt_le_square; [| apply Z.pow_nonneg; lia | exact Hsq].
    rewrite Hm'. apply Z.mul_nonneg_nonneg; [lia | apply Z.pow_nonneg; lia]. }
  pose proof (Zdigits2_ge Hk Hroot) as Hdig.
  assert (Hsum : Z.div2 (d + e + 1) <= Zdigits2 (Z.sqrt m') + e').
  { rewrite Z.div2_div. unfold k, s in *. Z.div_mod_to_equations. lia. }
  assert (Hmin : e' <= fexp prec emax (Z.div2 (d + e + 1)))
    by (unfold e'; lia).
  rewrite !fexp_eq in *. lia.
Qed.

Lemma SFsqrt_valid (x : spec_float) :
  valid_binary prec emax (SFsqrt prec emax x) = true.
Proof.
  destruct x as [s|[]| |[] m e]; try reflexivity.
  cbn [SFsqrt].
  pose proof (sqrt_core_placed m e) as H.
  destruct (SFsqrt_core_binary prec emax (Zpos m) e) as [[q e'] l].
  destruct H as [H1 H2]. apply binary_round_aux_valid; assumption.
Qed.

End Binary32WellFormed.

(* ================================================================== *)
(** ** Utils.h in binary32: the sign of the nearer root *)

Module Binary32SphereOrder.
Import Binary32 Binary32Facts Binary32WellFormed Samples MoreSamples.
Local Open Scope Z_scope.

(** Rounding keeps the sign: a negative number rounds to a zero, to a
    negative number or to -infinity. *)
Lemma binary_round_aux_negative (m e : Z) (l : location) :
  not_positive (binary_round_aux prec emax true m e l) = true.
Proof.
  unfold binary_round_aux.
  destruct (shr_fexp prec emax m e l) as [mrs' e'].
  destruct (shr_fexp prec emax _ e' loc_Exact) as [mrs'' e''].
  destruct (shr_m mrs''); [reflexivity | | reflexivity].
  destruct (e'' <=? emax - prec); reflexivity.
Qed.

Lemma binary_normalize_not_positive (z e : Z) :
  z <= 0 -> not_positive (binary_normalize prec emax z e false) = true.
Proof.
  destruct z as [|p|p]; intros H; [reflexivity | lia |].
  unfold binary_normalize, binary_round.
  destruct (shl_align p e _) as [mz ez]. apply binary_round_aux_negative.
Qed.

(** No test [lo <= x] with a positive [lo] passes for such an [x]. *)
Lemma leb_positive_not_positive (lo x : spec_float) :
  SFltb (of_Z 0) lo = true -> not_positive x = true -> SFleb lo x = false.
Proof.
  destruct lo as [s|[]| |[] m e]; try discriminate; intros _;
    destruct x as [s'|[]| |[] m' e']; try discriminate; intros _; reflexivity.
Qed.

Lemma shl_align_fst (m : positive) (e e' : Z) :
  e' <= e -> Zpos (fst (shl_align m e e')) = Zpos m * 2 ^ (e - e').
Proof.
  intros H. unfold shl_align.
  destruct (e' - e) as [|d|d] eqn:E.
  - replace (e - e') with 0 by lia. simpl. lia.
  - lia.
  - cbn [fst]. replace (e - e') with (Zpos d) by lia.
    change (Pos.iter xO m d) with (shift_pos d m).
    rewrite shift_pos_correct. change (Z.pow_pos 2 d) with (2 ^ Zpos d). lia.
Qed.

(** The mantissa of a binary32 value has at most 24 bits, and exactly 24
    above the least exponent -149. *)
Lemma canonical_bounds (m : positive) (e : Z) :
  canonical_mantissa prec emax m e = true ->
  -149 <= e /\ Zpos m < 2 ^ 24 /\ (-149 < e -> 2 ^ 23 <= Zpos m).
Proof.
  unfold canonical_mantissa, fexp, emin, prec, emax. intros H.
  apply Z.eqb_eq in H.
  pose proof (digits2_pos_bounds m) as [Hlo Hhi].
  set (d := Zpos (digits2_pos m)) in *.
  assert (Hd : 0 < d) by (unfold d; lia).
  split; [lia|]. split.
  - assert (d <= 24) by lia.
    apply Z.lt_le_trans with (1 := Hhi). apply Z.pow_le_mono_r; lia.
  - intros He. assert (d = 24) by lia.
    replace (d - 1) with 23 in Hlo by lia. exact Hlo.
Qed.

(** The order of two positive binary32 values, read on the mantissas
    aligned to the smaller exponent, as the subtraction aligns them. *)
Lemma aligned_le (m1 m2 : positive) (e1 e2 : Z) :
  canonical_mantissa prec emax m1 e1 = true ->
  canonical_mantissa prec emax m2 e2 = true ->
  e1 < e2 \/ (e1 = e2 /\ (m1 <= m2)%positive) ->
  Zpos (fst (shl_align m1 e1 (Z.min e1 e2)))
  <= Zpos (fst (shl_align m2 e2 (Z.min e1 e2))).
Proof.
  intros C1 C2 H.
  rewrite !shl_align_fst by lia.
  destruct (canonical_bounds _ _ C1) as (Hmin1 & Hhi1 & _).
  destruct (canonical_bounds _ _ C2) as (_ & _ & Hlo2).
  destruct H as [Hlt | [-> Hle]].
  - rewrite Z.min_l by lia. replace (e1 - e1) with 0 by lia.
    assert (H2 : 2 ^ 1 <= 2 ^ (e2 - e1)) by (apply Z.pow_le_mono_r; lia).
    specialize (Hlo2 ltac:(lia)). nia.
  - rewrite Z.min_id. replace (e2 - e2) with 0 by lia. simpl. lia.
Qed.

(** The difference of two binary32 values is a zero, NaN, negative or
    -infinity unless the second is less than the first: rounding the
    difference never turns its sign. *)
Lemma sub_not_positive (x y : spec_float) :
  valid_binary prec emax x = true -> valid_binary prec emax y = true ->
  SFltb y x = false -> not_positive (SFsub prec emax x y) = true.
Proof.
  intros Vx Vy H.
  destruct x as [sx|sx| |sx mx ex], y as [sy|sy| |sy my ey];
    try reflexivity;
    try (destruct sx, sy; try reflexivity; discriminate H).
  cbn [valid_binary] in Vx, Vy.
  unfold bounded in Vx, Vy.
  apply andb_true_iff in Vx, Vy. destruct Vx as [Cx _], Vy as [Cy _].
  cbn [SFsub]. apply binary_normalize_not_positive.
  unfold SFltb, SFcompare in H.
  change (Pos.compare_cont Eq my mx) with (my ?= mx)%positive in H.
  destruct sx, sy; cbn [cond_Zopp].
  - (* both negative *)
    assert (Hle : Zpos (fst (shl_align my ey (Z.min ey ex)))
                  <= Zpos (fst (shl_align mx ex (Z.min ey ex)))).
    { apply aligned_le; try assumption.
      destruct (ey ?= ex) eqn:E.
      - apply Z.compare_eq in E. right. split; [exact E|].
        destruct (my ?= mx)%positive eqn:Em; try discriminate H.
        + apply Pos.compare_eq in Em. subst. apply Pos.le_refl.
        + apply Pos.lt_le_incl. exact Em.
      - left. apply Z.compare_lt_iff. exact E.
      - discriminate H. }
    rewrite (Z.min_comm ex ey). lia.
  - lia.
  - discriminate H.
  - (* both positive *)
    assert (Hle : Zpos (fst (shl_align mx ex (Z.min ex ey)))
                  <= Zpos (fst (shl_align my ey (Z.min ex ey)))).
    { apply aligned_le; try assumption.
      destruct (ey ?= ex) eqn:E.
      - apply Z.compare_eq in E. right. split; [symmetry; exact E|].
        destruct (my ?= mx)%positive eqn:Em; try discriminate H.
        + apply Pos.compare_eq in Em. subst. apply Pos.le_refl.
        + apply Pos.lt_le_incl. apply Pos.gt_lt. exact Em.
      - discriminate H.
      - left. apply Z.compare_gt_iff. exact E. }
    lia.
Qed.

(** [dp] and [tca] as [HitTest_Sphere] computes them are binary32 values
    when the coordinates of the centre, of the ray origin and of the ray
    direction are. *)
Lemma sphere_dp_valid (sphere : Sphere spec_float) (ray : Ray spec_float) :
  valid_vector (sphere_origin sphere) = true ->
  valid_vector (ray_origin ray) = true ->
  valid_vector (ray_direction ray) = true ->
  valid_binary prec emax (sphere_dp sphere ray) = true.
Proof.
  unfold valid_vector. intros Vc Vo Vd.
  apply andb_true_iff in Vc, Vo, Vd.
  destruct Vc as [Vc Vc3], Vo as [Vo Vo3], Vd as [Vd Vd3].
  apply andb_true_iff in Vc, Vo, Vd.
  destruct Vc as [Vc1 Vc2], Vo as [Vo1 Vo2], Vd as [Vd1 Vd2].
  unfold sphere_dp, sphere_tc, Dot, vsub. cbn [vx vy vz].
  change (@fadd spec_float scalar) with (SFadd prec emax).
  change (@fsub spec_float scalar) with (SFsub prec emax).
  change (@fmul spec_float scalar) with (SFmul prec emax).
  repeat first [apply SFadd_valid | apply SFmul_valid | apply SFsub_valid];
    assumption.
Qed.

Lemma sphere_tca_valid (sphere : Sphere spec_float) (ray : Ray spec_float) :
  valid_binary prec emax (sphere_tca sphere ray) = true.
Proof. unfold sphere_tca. apply SFsqrt_valid. Qed.



(** Where the squares underflow.  The ray starts half a radius before the
    centre of the sphere of radius 2^-76, strictly inside it.  [Square] of
    the radius, of [tcl] and of [dp] are all +0, so [tca] is +0 and is less
    than [dp = 2^-77]: a hit is reported at the centre of the sphere, and
    each component of the recorded normal is NaN. *)
Lemma HitTest_Sphere_underflow_reports_hit_from_inside :
  (dist2_Q (ray_origin ray_within_tiny) (sphere_origin sphere_tiny)
   < to_Q (sphere_radius sphere_tiny) ^ 2)%Q
  /\ Square (sphere_radius sphere_tiny) = S754_zero false
  /\ sphere_dp sphere_tiny ray_within_tiny = two_pow_m77
  /\ sphere_tca sphere_tiny ray_within_tiny = S754_zero false
  /\ HitTest_Sphere sphere_tiny ray_within_tiny HitRecord_init false
     = (true,
        mkHit (ray_origin ray_within_tiny)
              (mkV3 S754_nan S754_nan S754_nan) two_pow_m77 true 0).
Proof. repeat split; vm_compute; reflexivity. Qed.

End Binary32SphereOrder.

(* ================================================================== *)
(** ** Material.h in binary32: the reflectivity of a Cook-Torrance material *)

Module Binary32UnitInterval.
Import Binary32 Binary32Facts Binary32WellFormed Binary32SphereOrder Samples
  MoreSamples.
Local Open Scope Z_scope.

(** The value of the right shift of [binary_round_aux]: the quotient by the
    power of two, and the round bit is set only when bits were lost. *)
Lemma shr_1_value (mrs : shr_record) :
  0 <= shr_m mrs ->
  shr_m (shr_1 mrs) = shr_m mrs / 2
  /\ (shr_r (shr_1 mrs) = true -> 2 * (shr_m mrs / 2) < shr_m mrs).
Proof.
  destruct mrs as [m r s]. cbn [shr_m]. intros H.
  destruct m as [|[p|p|]|p]; cbn [shr_1 shr_m shr_r]; try lia.
  - split; [reflexivity | discriminate].
  - split; [|intros _]; Z.div_mod_to_equations; lia.
  - split; [|discriminate]. Z.div_mod_to_equations; lia.
  - split; [reflexivity|]. intros _. reflexivity.
Qed.

Lemma iter_shr_1_value (p : positive) (mrs : shr_record) :
  0 <= shr_m mrs ->
  shr_m (SpecFloat.iter_pos shr_1 p mrs) = shr_m mrs / 2 ^ Zpos p
  /\ (shr_r (SpecFloat.iter_pos shr_1 p mrs) = true ->
      2 ^ Zpos p * (shr_m mrs / 2 ^ Zpos p) < shr_m mrs).
Proof.
  revert mrs.
  induction p as [p IH|p IH|]; intros mrs H; cbn [SpecFloat.iter_pos].
  - destruct (shr_1_value mrs H) as [E1 R1].
    assert (H1 : 0 <= shr_m (shr_1 mrs)) by (apply shr_1_digits; exact H).
    destruct (IH _ H1) as [E2 R2].
    assert (H2 : 0 <= shr_m (SpecFloat.iter_pos shr_1 p (shr_1 mrs)))
      by (apply iter_shr_1_digits; exact H1).
    destruct (IH _ H2) as [E3 R3].
    set (m := shr_m mrs) in *.
    assert (P : 0 < 2 ^ Zpos p) by (apply Z.pow_pos_nonneg; lia).
    assert (EP : 2 ^ Zpos p~1 = 2 * (2 ^ Zpos p * 2 ^ Zpos p)).
    { replace (Zpos p~1) with (1 + (Zpos p + Zpos p)) by lia.
      rewrite !Z.pow_add_r by lia. reflexivity. }
    assert (EV : m / 2 ^ Zpos p~1 = m / 2 / 2 ^ Zpos p / 2 ^ Zpos p).
    { rewrite EP, !Z.div_div by lia. f_equal. }
    split.
    + rewrite E3, E2, E1. symmetry. exact EV.
    + intros R. specialize (R3 R). rewrite E2, E1 in R3.
      rewrite EV, EP.
      pose proof (Z.mul_div_le m 2 ltac:(lia)).
      pose proof (Z.mul_div_le (m / 2) (2 ^ Zpos p) P).
      nia.
  - destruct (IH _ H) as [E2 R2].
    assert (H2 : 0 <= shr_m (SpecFloat.iter_pos shr_1 p mrs))
      by (apply iter_shr_1_digits; exact H).
    destruct (IH _ H2) as [E3 R3].
    set (m := shr_m mrs) in *.
    assert (P : 0 < 2 ^ Zpos p) by (apply Z.pow_pos_nonneg; lia).
    assert (EP : 2 ^ Zpos p~0 = 2 ^ Zpos p * 2 ^ Zpos p).
    { replace (Zpos p~0) with (Zpos p + Zpos p) by lia.
      rewrite Z.pow_add_r by lia. reflexivity. }
    assert (EV : m / 2 ^ Zpos p~0 = m / 2 ^ Zpos p / 2 ^ Zpos p).
    { rewrite EP, !Z.div_div by lia. reflexivity. }
    split.
    + rewrite E3, E2. symmetry. exact EV.
    + intros R. specialize (R3 R). rewrite E2 in R3.
      rewrite EV, EP.
      pose proof (Z.mul_div_le m (2 ^ Zpos p) P).
      nia.
  - change (2 ^ 1) with 2. apply shr_1_value. exact H.
Qed.

Lemma Zdigits2_le (m k : Z) : 0 <= m -> 0 <= k -> m < 2 ^ k -> Zdigits2 m <= k.
Proof.
  intros Hm Hk H.
  destruct (Z.eq_dec m 0) as [->|Hn]; [simpl; lia|].
  assert (H0 : 0 < m) by lia.
  pose proof (Zdigits2_bounds H0) as [Hlo _].
  pose proof (Zdigits2_pos_gt H0).
  assert (Zdigits2 m - 1 < k) by (apply (Z.pow_lt_mono_r_iff 2); lia).
  lia.
Qed.

Lemma shr_fexp_le_one (m e : Z) (l : location) :
  0 <= m -> e <= 0 -> m <= 2 ^ (- e) ->
  0 <= shr_m (fst (shr_fexp prec emax m e l))
  /\ snd (shr_fexp prec emax m e l) <= 0
  /\ shr_m (fst (shr_fexp prec emax m e l))
     <= 2 ^ (- snd (shr_fexp prec emax m e l))
  /\ (l = loc_Exact -> shr_r (fst (shr_fexp prec emax m e l)) = true ->
      shr_m (fst (shr_fexp prec emax m e l))
      < 2 ^ (- snd (shr_fexp prec emax m e l))).
Proof.
  intros Hm He Hv. unfold shr_fexp, shr.
  assert (Hd : Zdigits2 m <= - e + 1).
  { apply Zdigits2_le; try lia.
    rewrite Z.pow_add_r by lia. change (2 ^ 1) with 2.
    assert (0 < 2 ^ (- e)) by (apply Z.pow_pos_nonneg; lia). lia. }
  destruct (fexp prec emax (Zdigits2 m + e) - e) as [|p|p] eqn:E; cbn [fst snd];
    rewrite ?shr_record_of_loc_m.
  - repeat split; try assumption. intros ->. discriminate.
  - destruct (@iter_shr_1_value p (shr_record_of_loc m l)) as [EV R].
    { rewrite shr_record_of_loc_m. exact Hm. }
    rewrite shr_record_of_loc_m in EV, R. rewrite EV.
    assert (P : 0 < 2 ^ Zpos p) by (apply Z.pow_pos_nonneg; lia).
    assert (He' : e + Zpos p <= 0) by (rewrite fexp_eq in E; lia).
    assert (EP : 2 ^ (- e) = 2 ^ Zpos p * 2 ^ (- (e + Zpos p))).
    { rewrite <- Z.pow_add_r by lia. f_equal. lia. }
    split; [apply Z.div_pos; lia|]. split; [exact He'|]. split.
    + apply Z.div_le_upper_bound; [exact P|]. lia.
    + intros _ Hr. specialize (R Hr).
      apply (Z.mul_lt_mono_pos_l (2 ^ Zpos p)); [exact P|]. lia.
  - repeat split; try assumption. intros ->. discriminate.
Qed.

Lemma round_nearest_even_up (mrs : shr_record) :
  round_nearest_even (shr_m mrs) (loc_of_shr_record mrs) = shr_m mrs
  \/ (shr_r mrs = true
      /\ round_nearest_even (shr_m mrs) (loc_of_shr_record mrs) = shr_m mrs + 1).
Proof.
  destruct mrs as [m [] []]; cbn [shr_m shr_r loc_of_shr_record round_nearest_even];
    auto.
  destruct (Z.even m); auto.
Qed.

Lemma binary_round_aux_unit (m e : Z) :
  0 <= m -> e <= 0 -> m <= 2 ^ (- e) ->
  unit_value (binary_round_aux prec emax false m e loc_Exact).
Proof.
  intros Hm He Hv. unfold binary_round_aux.
  pose proof (shr_fexp_le_one loc_Exact Hm He Hv) as (H0 & H1 & H2 & H3).
  destruct (shr_fexp prec emax m e loc_Exact) as [mrs' e'].
  cbn [fst snd] in H0, H1, H2, H3. specialize (H3 eq_refl).
  set (m2 := round_nearest_even (shr_m mrs') (loc_of_shr_record mrs')).
  assert (B2 : 0 <= m2 /\ m2 <= 2 ^ (- e')).
  { unfold m2. destruct (round_nearest_even_up mrs') as [-> | [Hr ->]].
    - split; assumption.
    - specialize (H3 Hr). lia. }
  destruct B2 as [P2 L2].
  pose proof (shr_fexp_le_one loc_Exact P2 H1 L2) as (K0 & K1 & K2 & _).
  destruct (shr_fexp prec emax m2 e' loc_Exact) as [mrs'' e''].
  cbn [fst snd] in K0, K1, K2.
  destruct (shr_m mrs'') as [|mf|mf]; [exact I | | lia].
  assert (E : (e'' <=? emax - prec) = true)
    by (apply Z.leb_le; unfold emax, prec; lia).
  rewrite E. cbn [unit_value]. split; assumption.
Qed.

Lemma in_unit_unit_value (x : spec_float) :
  valid_binary prec emax x = true -> in_unit x = true -> unit_value x.
Proof.
  intros V H. unfold in_unit in H. apply andb_true_iff in H. destruct H as [H0 H1].
  destruct x as [s|[]| |[] m e]; try discriminate; [exact I|].
  cbn [unit_value].
  cbn [valid_binary] in V. unfold bounded in V.
  apply andb_true_iff in V. destruct V as [C _].
  destruct (canonical_bounds _ _ C) as (_ & Hhi & _).
  change (of_Z 1) with (S754_finite false 8388608 (-23)) in H1.
  unfold SFleb, SFcompare in H1.
  destruct (e ?= -23) eqn:E.
  - apply Z.compare_eq in E. subst e. split; [lia|].
    change (2 ^ (- -23)) with (Zpos 8388608).
    destruct (Pos.compare_cont Eq m 8388608) eqn:Em; try discriminate H1;
      change (Pos.compare_cont Eq m 8388608) with (m ?= 8388608)%positive in Em.
    + apply Pos.compare_eq in Em. subst. lia.
    + assert (m < 8388608)%positive by exact Em. lia.
  - assert (e < -23) by exact E. split; [lia|].
    apply Z.le_trans with (2 ^ 24); [lia|]. apply Z.pow_le_mono_r; lia.
  - discriminate H1.
Qed.

Lemma unit_value_in_unit (x : spec_float) :
  valid_binary prec emax x = true -> unit_value x -> in_unit x = true.
Proof.
  intros V U.
  destruct x as [s|[]| |[] m e]; try contradiction; [reflexivity|].
  cbn [unit_value] in U. destruct U as [He Hv].
  cbn [valid_binary] in V. unfold bounded in V.
  apply andb_true_iff in V. destruct V as [C _].
  destruct (canonical_bounds _ _ C) as (_ & _ & Hlo).
  unfold in_unit. apply andb_true_iff. split; [reflexivity|].
  change (of_Z 1) with (S754_finite false 8388608 (-23)).
  unfold SFleb, SFcompare.
  destruct (e ?= -23) eqn:E.
  - apply Z.compare_eq in E. subst e.
    change (2 ^ (- -23)) with (Zpos 8388608) in Hv.
    change (Pos.compare_cont Eq m 8388608) with (m ?= 8388608)%positive.
    destruct (m ?= 8388608)%positive eqn:Em; try reflexivity.
    assert (8388608 < m)%positive by (apply Pos.compare_gt_iff; exact Em). lia.
  - reflexivity.
  - assert (-23 < e) by (apply Z.compare_gt_iff; exact E).
    specialize (Hlo ltac:(lia)).
    assert (2 ^ (- e) < 2 ^ 23) by (apply Z.pow_lt_mono_r; lia). lia.
Qed.

Lemma binary_round_unit (p : positive) (e : Z) :
  e <= 0 -> Zpos p <= 2 ^ (- e) ->
  unit_value (binary_round prec emax false p e).
Proof.
  intros He Hv. unfold binary_round.
  set (f := fexp prec emax (Zpos (digits2_pos p) + e)).
  destruct (Z_le_gt_dec f e) as [Hf|Hf].
  - pose proof (shl_align_fst p Hf) as Hs.
    assert (Es : snd (shl_align p e f) = Z.min f e).
    { unfold shl_align. destruct (f - e) eqn:E; cbn [snd]; lia. }
    destruct (shl_align p e f) as [mz ez]. cbn [fst snd] in Hs, Es.
    subst ez. rewrite Z.min_l by lia.
    apply binary_round_aux_unit; try lia.
    rewrite Hs.
    replace (- f) with (- e + (e - f)) by lia.
    rewrite Z.pow_add_r by lia.
    apply Z.mul_le_mono_nonneg_r; [apply Z.pow_nonneg; lia | exact Hv].
  - unfold shl_align. destruct (f - e) eqn:E; try lia;
      apply binary_round_aux_unit; lia.
Qed.

Lemma unit_value_exponent (s : bool) (m : positive) (e : Z) :
  valid_binary prec emax (S754_finite s m e) = true ->
  Zpos m <= 2 ^ (- e) -> e <= 0 -> e <= -23.
Proof.
  intros V Hv He.
  cbn [valid_binary] in V. unfold bounded in V.
  apply andb_true_iff in V. destruct V as [C _].
  destruct (canonical_bounds _ _ C) as (_ & _ & Hlo).
  destruct (Z_le_gt_dec e (-23)) as [|Hg]; [assumption|].
  specialize (Hlo ltac:(lia)).
  assert (2 ^ (- e) < 2 ^ 23) by (apply Z.pow_lt_mono_r; lia). lia.
Qed.

Lemma one_minus_unit (x : spec_float) :
  valid_binary prec emax x = true -> unit_value x ->
  unit_value (SFsub prec emax (of_Z 1) x).
Proof.
  intros V U.
  change (of_Z 1) with (S754_finite false 8388608 (-23)).
  destruct x as [s|[]| |[] m e]; try contradiction.
  - cbn [SFsub unit_value]. change (2 ^ (- -23)) with 8388608. lia.
  - cbn [unit_value] in U. destruct U as [He Hv].
    pose proof (@unit_value_exponent false m e V Hv He) as He'.
    cbn [SFsub cond_Zopp]. rewrite Z.min_r by lia.
    rewrite !shl_align_fst by lia.
    replace (e - e) with 0 by lia. rewrite Z.mul_1_r.
    change (Zpos 8388608) with (2 ^ 23). rewrite <- Z.pow_add_r by lia.
    replace (23 + (-23 - e)) with (- e) by lia.
    destruct (2 ^ (- e) - Zpos m) as [|p|p] eqn:E; [exact I | | lia].
    cbn [binary_normalize]. apply binary_round_unit; lia.
Qed.

Lemma mul_unit (x y : spec_float) :
  unit_value x -> unit_value y -> unit_value (SFmul prec emax x y).
Proof.
  intros Ux Uy.
  destruct x as [sx|[]| |[] mx ex]; try contradiction;
    destruct y as [sy|[]| |[] my ey]; try contradiction; try exact I.
  cbn [unit_value] in Ux, Uy. destruct Ux as [Hex Hx], Uy as [Hey Hy].
  cbn [SFmul xorb]. apply binary_round_aux_unit; try lia.
  rewrite Pos2Z.inj_mul.
  replace (- (ex + ey)) with (- ex + - ey) by lia.
  rewrite Z.pow_add_r by lia.
  apply Z.mul_le_mono_nonneg; lia.
Qed.

(** X28.  In binary32, for a Cook-Torrance material whose metalness and
    roughness are binary32 values with [0 <= x] and [x <= 1],
    [GetReflectivity = (1 - roughness) * metalness] satisfies the same two
    comparisons: rounding never takes it out of the interval. *)
Theorem X28_CookTorrence_reflectivity_in_unit_interval
    (m_Albedo : ColorRGB spec_float) (m_Metalness m_Roughness : spec_float) :
  valid_binary prec emax m_Metalness = true ->
  valid_binary prec emax m_Roughness = true ->
  in_unit m_Metalness = true -> in_unit m_Roughness = true ->
  in_unit (GetReflectivity
             (Material_CookTorrence m_Albedo m_Metalness m_Roughness)) = true.
Proof.
  intros Vm Vr Um Ur.
  cbn [GetReflectivity].
  change (@fmul spec_float scalar) with (SFmul prec emax).
  change (@fsub spec_float scalar) with (SFsub prec emax).
  change (@f1 spec_float scalar) with (of_Z 1).
  assert (V1 : valid_binary prec emax (of_Z 1) = true) by reflexivity.
  apply unit_value_in_unit.
  - apply SFmul_valid; [apply SFsub_valid|]; assumption.
  - apply mul_unit.
    + apply one_minus_unit; [assumption|]. apply in_unit_unit_value; assumption.
    + apply in_unit_unit_value; assumption.
Qed.

(** Metalness 1 and roughness 0.5: the reflectivity is 0.5. *)
Lemma X28_CookTorrence_reflectivity_witness :
  GetReflectivity (Material_CookTorrence (RGB 1 1 1) (of_Z 1) f0_5) = f0_5
  /\ in_unit (GetReflectivity
                (Material_CookTorrence (RGB 1 1 1) (of_Z 1) f0_5)) = true.
Proof.
  split; [vm_compute; reflexivity |].
  apply (@X28_CookTorrence_reflectivity_in_unit_interval (RGB 1 1 1)
           (of_Z 1) f0_5); vm_compute; reflexivity.
Defined.

End Binary32UnitInterval.

(* ================================================================== *)
(** ** Matrix.cpp in binary32: transpose of a product, rotation, scale *)

Module Binary32MatrixFacts.
Import Binary32 Binary32Facts Samples MoreSamples Binary32RenderFacts.

(** The binary32 product is commutative, bit for bit. *)
Lemma SFmul_comm (x y : spec_float) : SFmul prec emax x y = SFmul prec emax y x.
Proof.
  destruct x as [sx|sx| |sx mx ex], y as [sy|sy| |sy my ey]; cbn [SFmul];
    try reflexivity; try (rewrite xorb_comm; reflexivity).
  rewrite xorb_comm, Pos.mul_comm, Z.add_comm. reflexivity.
Qed.

Lemma Dot4_comm (u v : Vector4 spec_float) : Dot4 u v = Dot4 v u.
Proof.
  unfold Dot4. cbn [fmul fadd scalar].
  rewrite (SFmul_comm (x4 u)), (SFmul_comm (y4 u)), (SFmul_comm (z4 u)),
    (SFmul_comm (w4 u)).
  reflexivity.
Qed.

(** X7.  In binary32 the transpose of a product is, bit for bit, the product
    of the transposes in the opposite order. *)
Theorem X7_Transpose_of_product (fresh a b : Matrix spec_float) :
  Transpose fresh (Matrix_mul fresh a b)
  = Matrix_mul fresh (Transpose fresh b) (Transpose fresh a).
Proof.
  destruct a as [[a00 a01 a02 a03] [a10 a11 a12 a13]
                 [a20 a21 a22 a23] [a30 a31 a32 a33]],
           b as [[b00 b01 b02 b03] [b10 b11 b12 b13]
                 [b20 b21 b22 b23] [b30 b31 b32 b33]].
  cbv [Matrix_mul Transpose for4 fold_left set_entry set_column column v4_set
       v4_get data0 data1 data2 data3 x4 y4 z4 w4].
  f_equal; f_equal; apply Dot4_comm.
Qed.

Lemma add_zero_or_nan_both (x y : spec_float) :
  zero_or_nan x = true -> zero_or_nan y = true ->
  zero_or_nan (SFadd prec emax x y) = true.
Proof.
  destruct x as [[]| | |], y as [[]| | |]; try discriminate; reflexivity.
Qed.

Lemma Dot4_zero_r (u : Vector4 spec_float) :
  zero_or_nan (Dot4 u (mkV4 f0 f0 f0 f0)) = true.
Proof.
  unfold Dot4. cbn [fmul fadd scalar x4 y4 z4 w4].
  repeat apply add_zero_or_nan_both; apply mul_zero_r; reflexivity.
Qed.

(** X13.  Whatever the three Euler angles and whatever [cosf] and [sinf]
    return, every vector transformed by [CreateRotation(r)] has a zero or
    NaN as its z component. *)
Theorem X13_CreateRotation_flattens
    (cosf sinf : spec_float -> spec_float) (fresh : Matrix spec_float)
    (r v : Vector3 spec_float) :
  zero_or_nan (vz (TransformVector (CreateRotation cosf sinf fresh r) v)) = true.
Proof.
  unfold CreateRotation.
  set (xy := Matrix_mul fresh (CreateRotationX _ _ _) _).
  destruct xy as [[a00 a01 a02 a03] [a10 a11 a12 a13]
                  [a20 a21 a22 a23] [a30 a31 a32 a33]].
  cbv [Matrix_mul Transpose for4 fold_left set_entry set_column column v4_set
       v4_get data0 data1 data2 data3 x4 y4 z4 w4 CreateRotationZ
       TransformVector TransformVector_xyz v4scale vz].
  cbn [fmul fadd scalar].
  repeat apply add_zero_or_nan_both; apply mul_zero_l; apply Dot4_zero_r.
Qed.

(* Adding a zero or a NaN on the right, or adding to one on the left. *)
Lemma same_or_nan_add_r (a x z : spec_float) :
  same_or_nan a x = true -> zero_or_nan z = true ->
  same_or_nan a (SFadd prec emax x z) = true.
Proof.
  destruct z as [sz| | |]; try discriminate; intros H _.
  - destruct x as [sx|sx| |sx m e]; try exact H.
    destruct a as [sa|[]| |[] ma ea]; try (destruct sx; discriminate H).
    destruct sx, sz; reflexivity.
  - destruct x as [sx|sx| |sx m e]; reflexivity.
Qed.

Lemma same_or_nan_add_l (z x : spec_float) :
  zero_or_nan z = true -> same_or_nan x (SFadd prec emax z x) = true.
Proof.
  destruct z as [sz| | |]; try discriminate; intros _.
  - destruct x as [[] |[]| |[] m e], sz; try reflexivity;
      simpl; unfold SFeqb, SFcompare;
      rewrite Z.compare_refl, Pos.compare_cont_refl; reflexivity.
  - reflexivity.
Qed.

(** X14.  In binary32 [CreateScale(s)] multiplies each component by its
    factor, for [TransformVector] and [TransformPoint] alike: each component
    of the image is NaN or equal (up to the sign of a zero) to the product
    of the factor and the component. *)
Theorem X14_CreateScale_scales (s v : Vector3 spec_float) :
  scaled s v (TransformVector (CreateScale s) v)
  /\ scaled s v (TransformPoint (CreateScale s) v).
Proof.
  destruct s as [sx sy sz], v as [x y z].
  unfold scaled, TransformVector, TransformPoint, TransformVector_xyz,
    TransformPoint_xyz, CreateScale, CreateScale_xyz, v4scale.
  cbn [vx vy vz x4 y4 z4 w4 data0 data1 data2 data3].
  change (@fadd spec_float scalar) with (SFadd prec emax).
  change (@fmul spec_float scalar) with (SFmul prec emax).
  assert (Z0 : forall a, zero_or_nan (SFmul prec emax f0 a) = true)
    by (intros a; apply mul_zero_l; reflexivity).
  assert (Zf : zero_or_nan f0 = true) by reflexivity.
  repeat split;
    repeat first
      [ apply same_or_nan_refl
      | apply same_or_nan_add_l; repeat apply add_zero_or_nan_both; apply Z0
      | apply same_or_nan_add_r; [| first [apply Z0 | exact Zf]] ].
Qed.

End Binary32MatrixFacts.
